(** * io-guard/validate: runtime shape validators

    A shallow embedding of the library (the Proxy-based [ValidatorMap],
    [IterableValidator], [ValidationTree] and the combinators), of the
    [Validator] draft of [src/index.ts] and of the sample validators of the
    usage file, together with the properties the specification states about
    them and further properties read off the code. *)

From Stdlib Require Import List String Ascii Bool ZArith QArith Lia Permutation.
Import ListNotations.
Local Open Scope string_scope.

Set Implicit Arguments.
Set Warnings "-register-all".

(** ** JavaScript numbers

    A double is NaN, an infinity, or a finite value; the comparisons of the
    language depend only on the real number a finite double denotes, which
    we keep as a rational (the two zeros denote the same rational). *)

Inductive number : Type :=
| NaN
| NegInf
| PosInf
| Fin (q : Q).

Definition Qlt_bool (a b : Q) : bool := negb (Qle_bool b a).

(** [Number::lessThan(x, y)]; [None] is the language's [undefined]. *)
Definition Number_lessThan (x y : number) : option bool :=
  match x, y with
  | NaN, _ => None
  | _, NaN => None
  | PosInf, _ => Some false
  | _, PosInf => Some true
  | _, NegInf => Some false
  | NegInf, _ => Some true
  | Fin a, Fin b => Some (Qlt_bool a b)
  end.

(** [x < y]: an undefined comparison counts as false. *)
Definition js_lt (x y : number) : bool :=
  match Number_lessThan x y with
  | Some r => r
  | None => false
  end.

(** [x <= y] is evaluated as "not (y < x)", undefined counting as false. *)
Definition js_le (x y : number) : bool :=
  match Number_lessThan y x with
  | Some r => negb r
  | None => false
  end.

Definition Number_isNaN (n : number) : bool :=
  match n with NaN => true | _ => false end.

(** ** Input values

    The data a validator is applied to.  [VObj] lists the own enumerable
    properties of a plain object, [VArr] the elements of an array, and
    [VIter] the elements produced by any other iterable object (a Set, a
    generator object, ...). *)

Inductive value : Type :=
| VUndefined
| VNull
| VBool (b : bool)
| VNum (n : number)
| VStr (s : string)
| VObj (props : list (string * value))
| VArr (elems : list value)
| VIter (elems : list value).

Definition VTrue : value := VBool true.
Definition VFalse : value := VBool false.

Definition js_typeof (item : value) : string :=
  match item with
  | VUndefined => "undefined"
  | VNull => "object"
  | VBool _ => "boolean"
  | VNum _ => "number"
  | VStr _ => "string"
  | VObj _ | VArr _ | VIter _ => "object"
  end.

(** [ToBoolean], applied by [!], [every] and [some] to a check's result. *)
Definition truthy (v : value) : bool :=
  match v with
  | VUndefined | VNull => false
  | VBool b => b
  | VNum NaN => false
  | VNum (Fin q) => negb (Qeq_bool q 0)
  | VNum _ => true
  | VStr s => negb (s =? "")
  | VObj _ | VArr _ | VIter _ => true
  end.

(** [item[Symbol.iterator]]: the elements the iteration protocol yields, when
    the value has the capability.  A string iterates over its characters;
    [null] and [undefined] are guarded by the optional chaining. *)
Definition characters (s : string) : list value :=
  map (fun c => VStr (String c EmptyString)) (list_ascii_of_string s).

Definition iterator_of (item : value) : option (list value) :=
  match item with
  | VArr elems => Some elems
  | VIter elems => Some elems
  | VStr s => Some (characters s)
  | _ => None
  end.

(** ** Computations

    A call of a JavaScript function may read and change the world [W] and
    either completes normally or throws. *)

Inductive completion (A : Type) : Type :=
| Normal (a : A)
| Throw (e : value).
Arguments Throw {A} e.

Definition M (W A : Type) : Type := W -> completion A * W.

Definition ret {W A} (a : A) : M W A := fun w => (Normal a, w).

Definition throw {W A} (e : value) : M W A := fun w => (Throw e, w).

Definition bind {W A B} (c : M W A) (k : A -> M W B) : M W B :=
  fun w =>
    match c w with
    | (Normal a, w') => k a w'
    | (Throw e, w') => (Throw e, w')
    end.

Notation "x <- c ;; k" := (bind c (fun x => k))
  (at level 61, c at next level, right associativity).

Definition TypeError : value := VObj [("name", VStr "TypeError")].

(** [checks.every(cb)] and [checks.some(cb)] of [Array.prototype]: the
    callback's result is coerced with [ToBoolean], and the scan stops at the
    first element that decides the answer. *)
Fixpoint every {W A} (cb : A -> M W value) (l : list A) : M W bool :=
  match l with
  | [] => ret true
  | x :: rest =>
      r <- cb x ;;
      if truthy r then every cb rest else ret false
  end.

Fixpoint some {W A} (cb : A -> M W value) (l : list A) : M W bool :=
  match l with
  | [] => ret false
  | x :: rest =>
      r <- cb x ;;
      if truthy r then ret true else some cb rest
  end.

(** The unabridged run: the callback applied to every element in order, all
    results kept.  It is the yardstick for what "every check" returns. *)
Fixpoint mapM {W A} (cb : A -> M W value) (l : list A) : M W (list value) :=
  match l with
  | [] => ret []
  | x :: rest =>
      r <- cb x ;;
      rs <- mapM cb rest ;;
      ret (r :: rs)
  end.

(** ** Function objects

    [Fn] is an ordinary (arrow) function object with its own [name] and
    [length]; the two proxies are the ones the library creates, each kept
    with the object its [get] trap closes over.  Neither handler defines
    another trap, so calling and [in] fall through to the target. *)

Inductive callable (W : Type) : Type :=
| Fn (name : string) (length : nat) (body : value -> M W value)
| MapProxy (target : callable W) (validators : list (string * callable W))
| IterProxy (target : callable W) (check : callable W).
Arguments Fn {W} name length body.
Arguments MapProxy {W} target validators.
Arguments IterProxy {W} target check.

(** A field map: the own enumerable properties of the object literal handed
    to [ValidatorMap], in [Object.keys] order; its prototype is
    [Object.prototype]. *)
Definition ValidationMap (W : Type) : Type := list (string * callable W).

(** What a property read on a function object or a field map can yield: a
    datum, a function object of the library, or a built-in object of the
    host, known by its name. *)
Inductive any (W : Type) : Type :=
| Data (v : value)
| Func (f : callable W)
| Host (name : string).
Arguments Data {W} v.
Arguments Func {W} f.
Arguments Host {W} name.

Definition undefined {W} : any W := Data VUndefined.

Definition mem (key : string) (names : list string) : bool :=
  existsb (String.eqb key) names.

(** The string-keyed properties every object inherits from
    [Object.prototype], and every function from [Function.prototype]. *)
Definition ObjectPrototype_names : list string :=
  [ "constructor"; "hasOwnProperty"; "isPrototypeOf"; "propertyIsEnumerable";
    "toLocaleString"; "toString"; "valueOf"; "__proto__";
    "__defineGetter__"; "__defineSetter__"; "__lookupGetter__";
    "__lookupSetter__" ].

Definition FunctionPrototype_names : list string :=
  [ "length"; "name"; "arguments"; "caller"; "constructor";
    "apply"; "bind"; "call"; "toString" ].

(** Reading an inherited property; [proto] names the prototype of the
    receiver, which is what the [__proto__] accessor answers. *)
Definition ObjectPrototype_get {W} (proto key : string) : any W :=
  if key =? "constructor" then Host "Object"
  else if key =? "__proto__" then Host proto
  else Host ("Object.prototype." ++ key).

Section FieldMaps.
Context {W : Type}.

Fixpoint own (validators : ValidationMap W) (key : string)
  : option (callable W) :=
  match validators with
  | [] => None
  | (k, v) :: rest => if key =? k then Some v else own rest key
  end.

(** [Object.keys(validators)] *)
Definition Object_keys (validators : ValidationMap W) : list string :=
  map fst validators.

(** [key in validators]: own or inherited. *)
Definition has_in_map (key : string) (validators : ValidationMap W) : bool :=
  match own validators key with
  | Some _ => true
  | None => mem key ObjectPrototype_names
  end.

(** [validators[key]] *)
Definition get_in_map (validators : ValidationMap W) (key : string) : any W :=
  match own validators key with
  | Some v => Func v
  | None =>
      if mem key ObjectPrototype_names
      then ObjectPrototype_get "Object.prototype" key
      else undefined
  end.

(** [key in f] for a function object.  A proxy without a [has] trap asks
    its target. *)
Fixpoint has_in (key : string) (f : callable W) : bool :=
  match f with
  | Fn _ _ _ =>
      mem key ["length"; "name"]
      || mem key FunctionPrototype_names
      || mem key ObjectPrototype_names
  | MapProxy target _ => has_in key target
  | IterProxy target _ => has_in key target
  end.

(** [f[key]].  On the proxies this is the [get] trap of the handler:
    [(key in validators) ? validators[key] : undefined] for the record
    validator, [(key in check) ? check[key] : undefined] for the lifted
    one.  On an arrow function the inherited [caller] and [arguments]
    accessors throw. *)
Fixpoint get (f : callable W) (key : string) : completion (any W) :=
  match f with
  | Fn name length _ =>
      if key =? "length" then Normal (Data (VNum (Fin (inject_Z (Z.of_nat length)))))
      else if key =? "name" then Normal (Data (VStr name))
      else if mem key ["arguments"; "caller"] then Throw TypeError
      else if key =? "constructor" then Normal (Host "Function")
      else if mem key FunctionPrototype_names
           then Normal (Host ("Function.prototype." ++ key))
      else if mem key ObjectPrototype_names
           then Normal (ObjectPrototype_get "Function.prototype" key)
      else Normal undefined
  | MapProxy _ validators =>
      Normal (if has_in_map key validators
              then get_in_map validators key
              else undefined)
  | IterProxy _ check =>
      if has_in key check then get check key else Normal undefined
  end.

(** [f(item)]: a proxy without an [apply] trap calls its target. *)
Fixpoint call (f : callable W) : value -> M W value :=
  match f with
  | Fn _ _ body => body
  | MapProxy target _ => call target
  | IterProxy target _ => call target
  end.
End FieldMaps.

(** ** The library *)

Definition isNull (item : value) : bool :=
  match item with VNull => true | _ => false end.

Definition isUndefined (item : value) : bool :=
  match item with VUndefined => true | _ => false end.

(** [item == null] holds of [null] and [undefined] alone. *)
Definition isMissing (item : value) : bool :=
  match item with VNull | VUndefined => true | _ => false end.

(** A descriptor handed to [ValidationTree]: a value of a key is either a
    function ([typeof item === "function"]) or a nested descriptor object,
    whose own enumerable keys are listed in enumeration order. *)
Inductive ValidationTreeDescriptor (W : Type) : Type :=
| Leaf (test : callable W)
| Node (fields : list (string * ValidationTreeDescriptor W)).
Arguments Leaf {W} test.
Arguments Node {W} fields.

Section Library.
Context {W : Type}.

(** The host's property read [item[key]] on a value that is not missing.
    The library relies on it and does not define it. *)
Variable Get : value -> string -> value.

(** The host's [ToNumber] on strings and objects. *)
Variable HostToNumber : value -> number.

Definition ToNumber (item : value) : number :=
  match item with
  | VUndefined => NaN
  | VNull => Fin 0
  | VBool true => Fin 1
  | VBool false => Fin 0
  | VNum n => n
  | _ => HostToNumber item
  end.

(** *** Record validators *)

(** The body of the [for] loop of [validate], from index [i] on; [keys] is
    the remaining slice of [Object.keys(validators)]. *)
Fixpoint validate_loop (validators : ValidationMap W) (keys : list string)
         (item : value) : M W value :=
  match keys with
  | [] => ret VTrue
  | key :: rest =>
      match get_in_map validators key with
      | Func validate =>
          r <- call validate (Get item key) ;;
          if negb (truthy r) then ret VFalse
          else validate_loop validators rest item
      | _ => throw TypeError
      end
  end.

Definition ValidatorMap (validators : ValidationMap W) : callable W :=
  let keys := Object_keys validators in
  let validate :=
    Fn "validate" 1
       (fun item =>
          if isMissing item then ret VFalse
          else validate_loop validators keys item) in
  MapProxy validate validators.

(** The [validate] closure of the earlier [Validator] draft, which scans
    the keys with [every]. *)
Definition Validator_validate (validators : ValidationMap W) : callable W :=
  Fn "validate" 1
     (fun item =>
        if isMissing item then ret VFalse
        else
          let keys := Object_keys validators in
          b <- every (fun key =>
                        match get_in_map validators key with
                        | Func validate => call validate (Get item key)
                        | _ => throw TypeError
                        end) keys ;;
          ret (VBool b)).

(** *** Lifting to iterables *)

Definition isTypeof (type : string) : callable W :=
  Fn "" 1 (fun item => ret (VBool (js_typeof item =? type))).

Definition isString : callable W := isTypeof "string".
Definition isBoolean : callable W := isTypeof "boolean".
Definition isNumber : callable W := isTypeof "number".

Definition isValidNumber : callable W :=
  Fn "isValidNumber" 1
     (fun item =>
        n <- call isNumber item ;;
        if truthy n
        then ret (VBool (negb (match item with
                               | VNum x => Number_isNaN x
                               | _ => false
                               end)))
        else ret n).

Definition isArray : callable W :=
  Fn "isArray" 1
     (fun item => ret (VBool (match item with VArr _ => true | _ => false end))).

Definition isIterable : callable W :=
  Fn "isIterable" 1
     (fun item =>
        match iterator_of item with
        | Some _ =>
            s <- call isString item ;;
            ret (VBool (negb (truthy s)))
        | None => ret VFalse
        end).

(** The [for ... of] loop of the lifted validator over the iterator's
    pending elements.  Besides the value returned it reports the elements
    the iterator has not handed out when the loop is left. *)
Fixpoint for_of (check : callable W) (pending : list value)
  : M W (value * list value) :=
  match pending with
  | [] => ret (VTrue, [])
  | item :: rest =>
      r <- call check item ;;
      if negb (truthy r) then ret (VFalse, rest)
      else for_of check rest
  end.

Definition IterableValidator (check : callable W) : callable W :=
  let validate :=
    Fn "validate" 1
       (fun items =>
          i <- call isIterable items ;;
          if negb (truthy i) then ret VFalse
          else
            match iterator_of items with
            | Some elems => out <- for_of check elems ;; ret (fst out)
            | None => throw TypeError
            end) in
  IterProxy validate check.

(** *** The tree compiler *)

(** [map[key] = test] on the object under construction: the property is
    updated in place when the object has it and appended otherwise.  (This
    is what the assignment does for every key but [__proto__], which the
    descriptors considered below do not use.) *)
Fixpoint assign (map : ValidationMap W) (key : string) (test : callable W)
  : ValidationMap W :=
  match map with
  | [] => [(key, test)]
  | (k, old) :: rest =>
      if key =? k then (k, test) :: rest
      else (k, old) :: assign rest key test
  end.

(** [for (let key in tree)] with the accumulator [map]; a function has no
    enumerable key. *)
Fixpoint buildValidationMap (tree : ValidationTreeDescriptor W)
  : ValidationMap W :=
  match tree with
  | Leaf _ => []
  | Node fields =>
      (fix loop (pending : list (string * ValidationTreeDescriptor W))
           (map : ValidationMap W) : ValidationMap W :=
         match pending with
         | [] => map
         | (key, sub) :: rest =>
             match sub with
             | Leaf test => loop rest (assign map key test)
             | Node _ =>
                 let submap := buildValidationMap sub in
                 let test := ValidatorMap submap in
                 loop rest (assign map key test)
             end
         end) fields []
  end.

Definition ValidationTree (tree : ValidationTreeDescriptor W) : callable W :=
  let map := buildValidationMap tree in
  ValidatorMap map.

(** *** Combinators *)

Definition test (check : callable W) : callable W :=
  Fn "" 1 (fun item => if isMissing item then ret VFalse else call check item).

Definition unsafeTest (check : callable W) : callable W :=
  Fn "" 1 (fun item => call check item).

Definition optional (check : callable W) : callable W :=
  Fn "" 1
     (fun item =>
        if isNull item then ret VFalse
        else if isUndefined item then ret VTrue
        else call check item).

Definition nullable (check : callable W) : callable W :=
  Fn "" 1
     (fun item =>
        if isUndefined item then ret VFalse
        else if isNull item then ret VTrue
        else call check item).

Definition erratic (check : callable W) : callable W :=
  Fn "" 1 (fun item => if isMissing item then ret VTrue else call check item).

Definition compose (checks : list (callable W)) : callable W :=
  Fn "" 1
     (fun item =>
        if isMissing item then ret VFalse
        else b <- every (fun check => call check item) checks ;; ret (VBool b)).

Definition or (checks : list (callable W)) : callable W :=
  Fn "" 1
     (fun item =>
        if isMissing item then ret VFalse
        else b <- some (fun check => call check item) checks ;; ret (VBool b)).

Definition and : list (callable W) -> callable W := compose.

Definition numberBetween (min max : number) : callable W :=
  Fn "" 1
     (fun item =>
        ret (VBool (js_le min (ToNumber item) && js_lt (ToNumber item) max))).
End Library.

(** ** Vocabulary of the statements *)

Definition all_truthy (rs : list value) : bool := forallb truthy rs.
Definition none_truthy (rs : list value) : bool := forallb (fun r => negb (truthy r)) rs.

(** The keys of an object are pairwise distinct. *)
Definition distinct_keys {B : Type} (fields : list (string * B)) : Prop :=
  NoDup (map fst fields).

(** What the record validator asks of one field: the field's validator
    applied to the property read off the input. *)
Definition field_check {W} (Get : value -> string -> value) (item : value)
           (field : string * callable W) : M W value :=
  call (snd field) (Get item (fst field)).

(** A host property read for the examples: the own properties of a plain
    object, [undefined] for a property that is absent. *)
Fixpoint property (props : list (string * value)) (key : string) : value :=
  match props with
  | [] => VUndefined
  | (k, v) :: rest => if key =? k then v else property rest key
  end.

Definition own_property (item : value) (key : string) : value :=
  match item with
  | VObj props => property props key
  | _ => VUndefined
  end.

(** *** Descriptor trees *)

(** Induction over descriptors reaching under the field lists. *)
Fixpoint descriptor_nested_ind {W} (P : ValidationTreeDescriptor W -> Prop)
         (HLeaf : forall test, P (Leaf test))
         (HNode : forall fields,
             Forall (fun f => P (snd f)) fields -> P (Node fields))
         (tree : ValidationTreeDescriptor W) : P tree :=
  match tree with
  | Leaf test => HLeaf test
  | Node fields =>
      HNode fields
            ((fix all (l : list (string * ValidationTreeDescriptor W))
              : Forall (fun f => P (snd f)) l :=
                match l with
                | [] => Forall_nil _
                | f :: rest =>
                    Forall_cons f
                      (descriptor_nested_ind P HLeaf HNode (snd f))
                      (all rest)
                end) fields)
  end.

(** The [for ... in] loop of [buildValidationMap], named. *)
Section ForIn.
Context {W : Type}.
Variable Get : value -> string -> value.

Fixpoint for_in (pending : list (string * ValidationTreeDescriptor W))
         (map : ValidationMap W) : ValidationMap W :=
  match pending with
  | [] => map
  | (key, sub) :: rest =>
      match sub with
      | Leaf test => for_in rest (assign map key test)
      | Node _ =>
          let submap := buildValidationMap Get sub in
          let test := ValidatorMap Get submap in
          for_in rest (assign map key test)
      end
  end.
End ForIn.

(** The validator the compiler stores for one value of the descriptor. *)
Definition compiled_field {W} (Get : value -> string -> value)
           (sub : ValidationTreeDescriptor W) : callable W :=
  match sub with
  | Leaf test => test
  | Node _ => ValidatorMap Get (buildValidationMap Get sub)
  end.

(** Nested application of the flat builder by hand, as the specification
    words it: a leaf is kept, a nested descriptor becomes the record
    validator of its own fields, each treated the same way. *)
Fixpoint by_hand {W} (Get : value -> string -> value)
         (tree : ValidationTreeDescriptor W) : callable W :=
  match tree with
  | Leaf test => test
  | Node fields =>
      ValidatorMap Get (map (fun f => (fst f, by_hand Get (snd f))) fields)
  end.

(** A descriptor literal: at every level the keys are pairwise distinct
    and none is [__proto__], which in a literal designates the prototype
    and in an assignment is the prototype accessor, never a field. *)
Fixpoint fresh_keys (keys : list string) : bool :=
  match keys with
  | [] => true
  | k :: rest => negb (mem k rest) && fresh_keys rest
  end.

Fixpoint literal {W} (tree : ValidationTreeDescriptor W) : bool :=
  match tree with
  | Leaf _ => true
  | Node fields =>
      fresh_keys (map fst fields)
      && negb (mem "__proto__" (map fst fields))
      && forallb (fun f => literal (snd f)) fields
  end.

(** *** Order of the numbers

    The order of the extended reals; NaN is comparable with nothing. *)
Definition num_le (x y : number) : Prop :=
  match x, y with
  | NaN, _ | _, NaN => False
  | NegInf, _ => True
  | _, PosInf => True
  | Fin a, Fin b => (a <= b)%Q
  | _, _ => False
  end.

Definition num_lt (x y : number) : Prop :=
  match x, y with
  | NaN, _ | _, NaN => False
  | PosInf, _ => False
  | _, NegInf => False
  | NegInf, _ => True
  | _, PosInf => True
  | Fin a, Fin b => (a < b)%Q
  end.

(** A check passes on an input when it completes with a truthy result. *)
Definition passes {W} (check : callable W) (item : value) (w w' : W) : Prop :=
  exists r, call check item w = (Normal r, w') /\ truthy r = true.

(** The number denoted by an integer literal. *)
Definition integer (n : Z) : number := Fin (inject_Z n).

(** *** Sample validators and inputs *)

(** A host coercion for the samples, which never reach it. *)
Definition no_coercion (item : value) : number := NaN.

Definition ab_map : ValidationMap unit := [("a", isString); ("b", isNumber)].

Definition xy_tree : ValidationTreeDescriptor unit :=
  Node [("x", Node [("y", Leaf isString)])].

Definition person_tree : ValidationTreeDescriptor unit :=
  Node [("name", Node [("given", Leaf isString); ("family", Leaf isString)]);
        ("age", Leaf isValidNumber)].

Definition bob : value :=
  VObj [("name", VObj [("given", VStr "Bob"); ("family", VStr "X")]);
        ("age", VNum (integer 30))].

Definition bob_without_family : value :=
  VObj [("name", VObj [("given", VStr "Bob")]); ("age", VNum (integer 30))].


(** ** Further parts of the library *)

(** The literals [isValueOf] is given for tag fields: primitive values, on
    which [===] needs no object identity. *)
Inductive primitive : Type :=
| PUndefined
| PNull
| PBool (b : bool)
| PNum (n : number)
| PStr (s : string).

Definition value_of (p : primitive) : value :=
  match p with
  | PUndefined => VUndefined
  | PNull => VNull
  | PBool b => VBool b
  | PNum n => VNum n
  | PStr s => VStr s
  end.

(** [Number::equal(x, y)]: NaN equals nothing, the two zeros are equal. *)
Definition Number_equal (x y : number) : bool :=
  match x, y with
  | NaN, _ => false
  | _, NaN => false
  | PosInf, PosInf => true
  | NegInf, NegInf => true
  | Fin a, Fin b => Qeq_bool a b
  | _, _ => false
  end.

(** [item === expected] for a primitive [expected]. *)
Definition IsStrictlyEqual (item : value) (expected : primitive) : bool :=
  match item, expected with
  | VUndefined, PUndefined => true
  | VNull, PNull => true
  | VBool a, PBool b => Bool.eqb a b
  | VNum x, PNum y => Number_equal x y
  | VStr s, PStr t => s =? t
  | _, _ => false
  end.

Definition isValueOf {W} (expected : primitive) : callable W :=
  Fn "" 1 (fun item => ret (VBool (IsStrictlyEqual item expected))).

(** The three missing-value policies, by name. *)
Inductive policy : Type := Optional | Nullable | Erratic.

Definition wrap {W} (p : policy) (check : callable W) : callable W :=
  match p with
  | Optional => optional check
  | Nullable => nullable check
  | Erratic => erratic check
  end.

(** A validator a field cannot do without: it answers [false] on
    [undefined], whatever the world. *)
Definition required {W} (validate : callable W) : Prop :=
  forall w, call validate VUndefined w = (Normal VFalse, w).

(** *** Chained lookups

    [validator.a.b.c]: each step must yield a function object of the
    library for the next one to be taken. *)
Fixpoint navigate {W} (f : callable W) (path : list string)
  : option (callable W) :=
  match path with
  | [] => Some f
  | key :: rest =>
      match get f key with
      | Normal (Func g) => navigate g rest
      | _ => None
      end
  end.

Fixpoint field {B : Type} (fields : list (string * B)) (key : string)
  : option B :=
  match fields with
  | [] => None
  | (k, v) :: rest => if key =? k then Some v else field rest key
  end.

(** The part of a descriptor a path of keys leads to. *)
Fixpoint subtree {W} (tree : ValidationTreeDescriptor W) (path : list string)
  : option (ValidationTreeDescriptor W) :=
  match path with
  | [] => Some tree
  | key :: rest =>
      match tree with
      | Leaf _ => None
      | Node fields =>
          match field fields key with
          | Some sub => subtree sub rest
          | None => None
          end
      end
  end.

(** *** The draft builder

    [Validator] of the draft hangs the field validators on the [validate]
    function itself with [Object.assign(validate, validators)].  The
    function object that results is described by the properties it
    received and by its prototype when a [__proto__] key replaced it. *)
Record assigned (W : Type) : Type := Assigned {
  target : callable W;
  received : ValidationMap W;
  prototype : option (callable W)
}.
Arguments Assigned {W} target received prototype.

Section Draft.
Context {W : Type}.
Variable Get : value -> string -> value.

(** One [Set(to, key, test, true)] of [Object.assign] on a function object:
    [name] and [length] are own read-only properties and the setters of the
    inherited [arguments] and [caller] throw, so these four keys end in a
    [TypeError]; [__proto__] is the prototype setter; any other key creates
    or updates an own property. *)
Definition Set_property (to : assigned W) (key : string) (test : callable W)
  : completion (assigned W) :=
  if mem key ["name"; "length"; "arguments"; "caller"] then Throw TypeError
  else if key =? "__proto__"
       then Normal (Assigned (target to) (received to) (Some test))
  else Normal (Assigned (target to) (assign (received to) key test)
                        (prototype to)).

Fixpoint Object_assign (to : assigned W) (source : ValidationMap W)
  : completion (assigned W) :=
  match source with
  | [] => Normal to
  | (key, test) :: rest =>
      match Set_property to key test with
      | Normal to' => Object_assign to' rest
      | Throw e => Throw e
      end
  end.

Definition Validator (validators : ValidationMap W)
  : completion (assigned W) :=
  let validate := Validator_validate Get validators in
  Object_assign (Assigned validate [] None) validators.

End Draft.

(** *** The sample shapes of the usage file

    The arrow functions handed to [and] and [test] there, then the
    validators built from them.  A string is its sequence of code units. *)
Section Usage.
Context {W : Type}.
Variable Get : value -> string -> value.
Variable HostToNumber : value -> number.

(** [id => id.startsWith(type)]: only a string has the method. *)
Definition startsWith (type : string) : callable W :=
  Fn "" 1
     (fun id =>
        match id with
        | VStr s => ret (VBool (String.prefix type s))
        | _ => throw TypeError
        end).

(** [x => x.length >= 1] *)
Definition hasLength : callable W :=
  Fn "" 1
     (fun x =>
        match x with
        | VStr s => ret (VBool (1 <=? String.length s)%nat)
        | VNull | VUndefined => throw TypeError
        | _ => ret (VBool (js_le (integer 1)
                                 (ToNumber HostToNumber (Get x "length"))))
        end).

(** [label => labels.includes(label)] for an array of strings. *)
Definition includes (labels : list string) : callable W :=
  Fn "" 1
     (fun label =>
        ret (VBool (match label with
                    | VStr s => mem s labels
                    | _ => false
                    end))).

Definition isIDType (type : string) : callable W :=
  and [isString; startsWith type].

Definition isNonEmptyString : callable W := and [isString; hasLength].

Definition isAddress : callable W :=
  ValidatorMap Get
    [("city", isNonEmptyString);
     ("street", isNonEmptyString);
     ("code", isNonEmptyString)].

Definition isPrimaryContact : callable W :=
  ValidationTree Get
    (Node [("label", Leaf (test (includes ["HOME"; "MOBILE"])));
           ("phone", Leaf isNonEmptyString);
           ("address", Leaf isAddress)]).

Definition isSecondaryContact : callable W :=
  ValidationTree Get
    (Node [("label", Leaf (test (includes ["MOBILE"; "BUSINESS"])));
           ("phone", Leaf isNonEmptyString)]).

(** [items => isPrimaryContact(items[0])] *)
Definition firstIsPrimary : callable W :=
  Fn "" 1
     (fun items =>
        match items with
        | VNull | VUndefined => throw TypeError
        | _ => call isPrimaryContact (Get items "0")
        end).

(** [item => isPrimaryContact(item) || isSecondaryContact(item)] *)
Definition primaryOrSecondary : callable W :=
  Fn "" 1
     (fun item =>
        p <- call isPrimaryContact item ;;
        if truthy p then ret p else call isSecondaryContact item).

(** The validator of [contactOptions] in [isTransaction]. *)
Definition contactOptions : callable W :=
  and [isIterable;
       test firstIsPrimary;
       IterableValidator (test primaryOrSecondary)].

Definition isVHS : callable W :=
  ValidatorMap Get
    [("id", isIDType "video:");
     ("type", isValueOf (PStr "VHS"));
     ("year", and [isNumber; numberBetween HostToNumber (integer 1989) (integer 2003)]);
     ("title", isNonEmptyString)].

Definition isDVD : callable W :=
  ValidatorMap Get
    [("id", isIDType "video:");
     ("type", isValueOf (PStr "DVD"));
     ("year", and [isNumber; numberBetween HostToNumber (integer 1998) (integer 2008)]);
     ("title", isNonEmptyString)].

Definition isVideo : callable W := or [isVHS; isDVD].

(** What [isVHS] and [isDVD] ask of the four properties of a video. *)
Definition video_fields (type : string) (first last : Z) (item : value) : bool :=
  match Get item "id" with
  | VStr id => String.prefix "video:" id
  | _ => false
  end
  && match Get item "type" with
     | VStr t => t =? type
     | _ => false
     end
  && match Get item "year" with
     | VNum y => js_le (integer first) y && js_lt y (integer last)
     | _ => false
     end
  && match Get item "title" with
     | VStr t => (1 <=? String.length t)%nat
     | _ => false
     end.
End Usage.

(** ** Short-circuit scans against the unabridged run *)

Local Open Scope list_scope.

Ltac step_run c w :=
  let r := fresh "r" in
  let e := fresh "e" in
  let w' := fresh "w" in
  let E := fresh "E" in
  destruct (c w) as [[r | e] w'] eqn:E.

Section Scans.
Context {W A : Type}.
Variable cb : A -> M W value.

Lemma every_all l : forall w rs w',
    mapM cb l w = (Normal rs, w') -> all_truthy rs = true ->
    every cb l w = (Normal true, w').
Proof.
  induction l as [| x l IH]; intros w rs w' Hrun Hall; simpl in *.
  - inversion Hrun; reflexivity.
  - unfold bind in *. step_run (cb x) w; [| discriminate].
    step_run (mapM cb l) w0; [| discriminate].
    inversion Hrun; subst. simpl in Hall.
    apply andb_true_iff in Hall as [Hr Hrs].
    rewrite Hr. eauto.
Qed.

Lemma every_first_failure pre : forall x post w rs w1 r w2,
    mapM cb pre w = (Normal rs, w1) -> all_truthy rs = true ->
    cb x w1 = (Normal r, w2) -> truthy r = false ->
    every cb (pre ++ x :: post) w = (Normal false, w2).
Proof.
  induction pre as [| y pre IH]; intros x post w rs w1 r w2 Hrun Hall Hx Hr;
    simpl in *.
  - inversion Hrun; subst. unfold bind. rewrite Hx, Hr. reflexivity.
  - unfold bind in *. step_run (cb y) w; [| discriminate].
    step_run (mapM cb pre) w0; [| discriminate].
    inversion Hrun; subst. simpl in Hall.
    apply andb_true_iff in Hall as [Hy Hrs].
    rewrite Hy. eauto.
Qed.

Lemma every_true_inv l : forall w w',
    every cb l w = (Normal true, w') ->
    exists rs, mapM cb l w = (Normal rs, w') /\ all_truthy rs = true.
Proof.
  induction l as [| x l IH]; intros w w' Hrun; simpl in *.
  - inversion Hrun; subst. exists []. split; reflexivity.
  - unfold bind in *. step_run (cb x) w; [| discriminate].
    destruct (truthy r) eqn:Hr; [| discriminate].
    destruct (IH _ _ Hrun) as [rs [Hrs Hall]].
    exists (r :: rs). rewrite Hrs. simpl. rewrite Hr. auto.
Qed.

Lemma every_false_inv l : forall w w',
    every cb l w = (Normal false, w') ->
    exists pre x post rs w1 r,
      l = pre ++ x :: post /\
      mapM cb pre w = (Normal rs, w1) /\ all_truthy rs = true /\
      cb x w1 = (Normal r, w') /\ truthy r = false.
Proof.
  induction l as [| x l IH]; intros w w' Hrun; simpl in *.
  - discriminate.
  - unfold bind in *. step_run (cb x) w; [| discriminate].
    destruct (truthy r) eqn:Hr.
    + destruct (IH _ _ Hrun)
        as (pre & y & post & rs & w1 & r' & Hl & Hpre & Hall & Hy & Hr').
      exists (x :: pre), y, post, (r :: rs), w1, r'. subst l. simpl.
      unfold bind. rewrite E, Hpre. simpl. rewrite Hr. auto.
    + inversion Hrun; subst.
      exists [], x, l, [], w, r. simpl. auto.
Qed.

Lemma some_none l : forall w rs w',
    mapM cb l w = (Normal rs, w') -> none_truthy rs = true ->
    some cb l w = (Normal false, w').
Proof.
  induction l as [| x l IH]; intros w rs w' Hrun Hnone; simpl in *.
  - inversion Hrun; reflexivity.
  - unfold bind in *. step_run (cb x) w; [| discriminate].
    step_run (mapM cb l) w0; [| discriminate].
    inversion Hrun; subst. simpl in Hnone.
    apply andb_true_iff in Hnone as [Hr Hrs].
    apply negb_true_iff in Hr. rewrite Hr. eauto.
Qed.

Lemma some_first_success pre : forall x post w rs w1 r w2,
    mapM cb pre w = (Normal rs, w1) -> none_truthy rs = true ->
    cb x w1 = (Normal r, w2) -> truthy r = true ->
    some cb (pre ++ x :: post) w = (Normal true, w2).
Proof.
  induction pre as [| y pre IH]; intros x post w rs w1 r w2 Hrun Hnone Hx Hr;
    simpl in *.
  - inversion Hrun; subst. unfold bind. rewrite Hx, Hr. reflexivity.
  - unfold bind in *. step_run (cb y) w; [| discriminate].
    step_run (mapM cb pre) w0; [| discriminate].
    inversion Hrun; subst. simpl in Hnone.
    apply andb_true_iff in Hnone as [Hy Hrs].
    apply negb_true_iff in Hy. rewrite Hy. eauto.
Qed.

Lemma some_true_inv l : forall w w',
    some cb l w = (Normal true, w') ->
    exists pre x post rs w1 r,
      l = pre ++ x :: post /\
      mapM cb pre w = (Normal rs, w1) /\ none_truthy rs = true /\
      cb x w1 = (Normal r, w') /\ truthy r = true.
Proof.
  induction l as [| x l IH]; intros w w' Hrun; simpl in *.
  - discriminate.
  - unfold bind in *. step_run (cb x) w; [| discriminate].
    destruct (truthy r) eqn:Hr.
    + inversion Hrun; subst.
      exists [], x, l, [], w, r. simpl. auto.
    + destruct (IH _ _ Hrun)
        as (pre & y & post & rs & w1 & r' & Hl & Hpre & Hnone & Hy & Hr').
      exists (x :: pre), y, post, (r :: rs), w1, r'. subst l. simpl.
      unfold bind. rewrite E, Hpre. simpl. rewrite Hr. auto.
Qed.

Lemma some_false_inv l : forall w w',
    some cb l w = (Normal false, w') ->
    exists rs, mapM cb l w = (Normal rs, w') /\ none_truthy rs = true.
Proof.
  induction l as [| x l IH]; intros w w' Hrun; simpl in *.
  - inversion Hrun; subst. exists []. split; reflexivity.
  - unfold bind in *. step_run (cb x) w; [| discriminate].
    destruct (truthy r) eqn:Hr; [discriminate |].
    destruct (IH _ _ Hrun) as [rs [Hrs Hnone]].
    exists (r :: rs). rewrite Hrs. simpl. rewrite Hr. auto.
Qed.

(** When the callback leaves the world alone and does not throw, the scans
    are [forallb] and [existsb]. *)
Lemma every_pure (res : A -> value) l :
  (forall x, In x l -> forall w, cb x w = (Normal (res x), w)) ->
  forall w, every cb l w = (Normal (forallb (fun x => truthy (res x)) l), w).
Proof.
  induction l as [| x l IH]; intros Hpure w; simpl; [reflexivity |].
  unfold bind. rewrite (Hpure x (or_introl eq_refl)).
  destruct (truthy (res x)); simpl; [| reflexivity].
  apply IH. intros y Hy. apply Hpure. right; exact Hy.
Qed.

Lemma some_pure (res : A -> value) l :
  (forall x, In x l -> forall w, cb x w = (Normal (res x), w)) ->
  forall w, some cb l w = (Normal (existsb (fun x => truthy (res x)) l), w).
Proof.
  induction l as [| x l IH]; intros Hpure w; simpl; [reflexivity |].
  unfold bind. rewrite (Hpure x (or_introl eq_refl)).
  destruct (truthy (res x)); simpl; [reflexivity |].
  apply IH. intros y Hy. apply Hpure. right; exact Hy.
Qed.

Lemma mapM_ext (cb' : A -> M W value) l :
  (forall x, In x l -> forall w, cb x w = cb' x w) ->
  forall w, mapM cb l w = mapM cb' l w.
Proof.
  induction l as [| x l IH]; intros Hext w; simpl; [reflexivity |].
  unfold bind. rewrite (Hext x (or_introl eq_refl)).
  step_run (cb' x) w; [| reflexivity].
  rewrite IH; [reflexivity |]. intros y Hy. apply Hext. right; exact Hy.
Qed.
End Scans.

(** ** Record validators *)

Section RecordValidators.
Context {W : Type}.
Variable Get : value -> string -> value.

Lemma own_In (validators : ValidationMap W) : forall k v,
    distinct_keys validators -> In (k, v) validators ->
    own validators k = Some v.
Proof.
  unfold distinct_keys.
  induction validators as [| [k0 v0] rest IH]; intros k v Hnd Hin;
    simpl in *; [contradiction |].
  inversion Hnd as [| ? ? Hnotin Hnd']; subst.
  destruct Hin as [Heq | Hin].
  - inversion Heq; subst. rewrite String.eqb_refl. reflexivity.
  - destruct (String.eqb_spec k k0) as [-> | Hne].
    + exfalso. apply Hnotin. apply (in_map fst) in Hin. exact Hin.
    + apply IH; assumption.
Qed.

Lemma own_not_key (validators : ValidationMap W) key :
  ~ In key (Object_keys validators) -> own validators key = None.
Proof.
  induction validators as [| [k0 v0] rest IH]; simpl; intros Hnot;
    [reflexivity |].
  destruct (String.eqb_spec key k0) as [-> | Hne].
  - exfalso. apply Hnot. left; reflexivity.
  - apply IH. intros Hin. apply Hnot. right; exact Hin.
Qed.

(** The [for] loop is the scan [every] over the fields. *)
Lemma validate_loop_every (validators : ValidationMap W) item :
  forall fields : ValidationMap W,
    (forall k v, In (k, v) fields -> own validators k = Some v) ->
    forall w,
      validate_loop Get validators (Object_keys fields) item w =
      (b <- every (field_check Get item) fields ;; ret (VBool b)) w.
Proof.
  induction fields as [| [k v] rest IH]; intros Hown w; simpl.
  - reflexivity.
  - unfold get_in_map. rewrite (Hown k v (or_introl eq_refl)).
    unfold bind, field_check; simpl.
    step_run (call v (Get item k)) w; [| reflexivity].
    destruct (truthy r); simpl; [| reflexivity].
    rewrite IH; [reflexivity |].
    intros k' v' Hin. apply Hown. right; exact Hin.
Qed.

Lemma ValidatorMap_call (validators : ValidationMap W) item w :
  distinct_keys validators ->
  call (ValidatorMap Get validators) item w =
  if isMissing item then (Normal VFalse, w)
  else (b <- every (field_check Get item) validators ;; ret (VBool b)) w.
Proof.
  intros Hnd. simpl. destruct (isMissing item); [reflexivity |].
  apply validate_loop_every. intros k v Hin. apply own_In; assumption.
Qed.

(** X22.  The draft's closure, which scans the keys with [every], and the
    loop of [ValidatorMap] are the same computation: same answer, same
    effects and same exceptions on every input. *)
Lemma Validator_validate_call (validators : ValidationMap W) item w :
  call (Validator_validate Get validators) item w =
  call (ValidatorMap Get validators) item w.
Proof.
  simpl. destruct (isMissing item); [reflexivity |].
  generalize (Object_keys validators) as keys. intros keys. revert w.
  induction keys as [| key rest IH]; intros w; simpl; [reflexivity |].
  destruct (get_in_map validators key) as [v | validate | name];
    try reflexivity.
  unfold bind in *. step_run (call validate (Get item key)) w; [| reflexivity].
  destruct (truthy r); simpl; [apply IH | reflexivity].
Qed.

(** With field validators that have no effect, the answer is the
    conjunction of their answers. *)
Lemma ValidatorMap_pure (validators : ValidationMap W) item
      (res : string * callable W -> value) :
  distinct_keys validators ->
  (forall f, In f validators ->
             forall w, field_check Get item f w = (Normal (res f), w)) ->
  isMissing item = false ->
  forall w,
    call (ValidatorMap Get validators) item w =
    (Normal (VBool (forallb (fun f => truthy (res f)) validators)), w).
Proof.
  intros Hnd Hpure Hitem w.
  rewrite ValidatorMap_call, Hitem by assumption. unfold bind.
  rewrite (every_pure (field_check Get item) res validators Hpure).
  reflexivity.
Qed.

(** The host read of the samples answers [undefined] for a property the
    object does not have. *)
Lemma own_property_absent props key :
  ~ In key (map fst props) -> own_property (VObj props) key = VUndefined.
Proof.
  simpl. induction props as [| [k v] rest IH]; simpl; intros Hnot;
    [reflexivity |].
  destruct (String.eqb_spec key k) as [-> | Hne].
  - exfalso. apply Hnot. left; reflexivity.
  - apply IH. intros Hin. apply Hnot. right; exact Hin.
Qed.

(** C1.  The validator built by [ValidatorMap] from a field map answers
    [false] on [null] and [undefined] without running any field validator.
    On any other input it runs the validators of the declared keys in map
    order, each on the property read off the input: it answers [false] at
    the first field whose validator's result is false, the fields after it
    being left alone, and it answers [true] exactly when every field's
    validator answers true. *)
Theorem ValidatorMap_validate (validators : ValidationMap W) (item : value) (w : W) :
  distinct_keys validators ->
  (isMissing item = true ->
   call (ValidatorMap Get validators) item w = (Normal VFalse, w)) /\
  (isMissing item = false ->
   (forall pre k validate post rs w1 r w2,
       validators = pre ++ (k, validate) :: post ->
       mapM (field_check Get item) pre w = (Normal rs, w1) ->
       all_truthy rs = true ->
       call validate (Get item k) w1 = (Normal r, w2) ->
       truthy r = false ->
       call (ValidatorMap Get validators) item w = (Normal VFalse, w2)) /\
   (forall w',
       call (ValidatorMap Get validators) item w = (Normal VTrue, w') <->
       exists rs,
         mapM (field_check Get item) validators w = (Normal rs, w') /\
         all_truthy rs = true)).
Proof.
  intros Hnd. split; [| intros Hitem; split; revert Hitem].
  - intros Hmiss. rewrite ValidatorMap_call, Hmiss by assumption. reflexivity.
  - intros Hitem pre k validate post rs w1 r w2 Hsplit Hpre Hall Hk Hr.
    rewrite ValidatorMap_call, Hitem by assumption. unfold bind.
    rewrite Hsplit.
    rewrite (every_first_failure (field_check Get item) pre (k, validate) post
               w Hpre Hall Hk Hr).
    reflexivity.
  - intros Hitem w'. rewrite ValidatorMap_call, Hitem by assumption.
    unfold bind. split.
    + intros Hrun.
      step_run (every (field_check Get item) validators) w; [| discriminate].
      inversion Hrun; subst. apply every_true_inv. exact E.
    + intros [rs [Hrun Hall]].
      rewrite (every_all _ _ _ Hrun Hall). reflexivity.
Qed.
End RecordValidators.

(** ** Field lookup *)

Section Lookup.
Context {W : Type}.
Variable Get : value -> string -> value.

(** The [get] trap answers with what the field map itself answers. *)
Lemma ValidatorMap_get (validators : ValidationMap W) key :
  get (ValidatorMap Get validators) key =
  Normal (if has_in_map key validators
          then get_in_map validators key
          else undefined).
Proof. reflexivity. Qed.

(** A declared key yields the validator stored under it. *)
Lemma ValidatorMap_get_declared (validators : ValidationMap W) key validate :
  distinct_keys validators -> In (key, validate) validators ->
  get (ValidatorMap Get validators) key = Normal (Func validate).
Proof.
  intros Hnd Hin. rewrite ValidatorMap_get.
  unfold has_in_map, get_in_map. rewrite (own_In _ _ Hnd Hin). reflexivity.
Qed.

(** A name that is neither declared nor inherited from [Object.prototype]
    yields [undefined]; [name] and [length] are such names. *)
Lemma ValidatorMap_get_foreign (validators : ValidationMap W) key :
  ~ In key (Object_keys validators) ->
  mem key ObjectPrototype_names = false ->
  get (ValidatorMap Get validators) key = Normal undefined.
Proof.
  intros Hnot Hproto. rewrite ValidatorMap_get.
  unfold has_in_map. rewrite (own_not_key _ _ Hnot), Hproto. reflexivity.
Qed.

(** An undeclared name inherited from [Object.prototype] yields the
    inherited built-in. *)
Lemma ValidatorMap_get_inherited (validators : ValidationMap W) key :
  ~ In key (Object_keys validators) ->
  mem key ObjectPrototype_names = true ->
  get (ValidatorMap Get validators) key =
  Normal (ObjectPrototype_get "Object.prototype" key).
Proof.
  intros Hnot Hproto. rewrite ValidatorMap_get.
  unfold has_in_map, get_in_map.
  rewrite (own_not_key _ _ Hnot), Hproto. reflexivity.
Qed.

(** The [get] trap of the lifted validator. *)
Lemma IterableValidator_get (check : callable W) key :
  get (IterableValidator check) key =
  if has_in key check then get check key else Normal undefined.
Proof. reflexivity. Qed.

(** [key in check] on a record validator asks the wrapped [validate]
    function, whatever the field map declares. *)
Lemma has_in_ValidatorMap (validators : ValidationMap W) key :
  has_in key (ValidatorMap Get validators) =
  mem key ["length"; "name"]
  || mem key FunctionPrototype_names
  || mem key ObjectPrototype_names.
Proof. reflexivity. Qed.

(** A field of the element validator whose name is not a property of
    function objects is not forwarded. *)
Lemma IterableValidator_get_not_forwarded (validators : ValidationMap W) key :
  mem key FunctionPrototype_names = false ->
  mem key ObjectPrototype_names = false ->
  get (IterableValidator (ValidatorMap Get validators)) key = Normal undefined.
Proof.
  intros Hfun Hobj. rewrite IterableValidator_get, has_in_ValidatorMap.
  assert (Hown : mem key ["length"; "name"] = false).
  { unfold mem in *. simpl in *.
    destruct (key =? "length"); [discriminate |].
    destruct (key =? "name"); [discriminate | reflexivity]. }
  rewrite Hown, Hfun, Hobj. reflexivity.
Qed.

(** A field named like a property of function objects is forwarded. *)
Lemma IterableValidator_get_forwarded (validators : ValidationMap W) key :
  mem key FunctionPrototype_names = true ->
  get (IterableValidator (ValidatorMap Get validators)) key =
  get (ValidatorMap Get validators) key.
Proof.
  intros Hfun. rewrite IterableValidator_get, has_in_ValidatorMap.
  rewrite Hfun, orb_true_r. reflexivity.
Qed.
End Lookup.

(** C2.  Lookup of an undeclared name on a record validator does not always
    yield [undefined]: on the validator built from [{a: isString}], which
    declares [a] alone, [toString] yields the built-in inherited by the field
    map from [Object.prototype], while [name] and [length] do yield
    [undefined] and [a] yields the stored validator. *)
Theorem ValidatorMap_lookup_toString :
  let validator := ValidatorMap (W := unit) own_property [("a", isString)] in
  get validator "toString" = Normal (Host "Object.prototype.toString") /\
  get validator "toString" <> Normal undefined /\
  get validator "a" = Normal (Func isString) /\
  get validator "name" = Normal undefined /\
  get validator "length" = Normal undefined.
Proof.
  repeat split; try reflexivity. discriminate.
Qed.

(** C5.  Lookup on the lifted validator does not forward a declared field of
    the element validator: with the element validator built from
    [{city: isString}], the element validator yields [isString] for [city]
    and the collection validator yields [undefined]. *)
Theorem IterableValidator_lookup_city :
  let element := ValidatorMap (W := unit) own_property [("city", isString)] in
  get element "city" = Normal (Func isString) /\
  get (IterableValidator element) "city" = Normal undefined.
Proof.
  split; reflexivity.
Qed.

(** ** The tree compiler *)

Section TreeCompiler.
Context {W : Type}.
Variable Get : value -> string -> value.

Lemma buildValidationMap_Node (fields : list (string * ValidationTreeDescriptor W)) :
  buildValidationMap Get (Node fields) = for_in Get fields [].
Proof. reflexivity. Qed.

Lemma mem_In key names : mem key names = true <-> In key names.
Proof.
  unfold mem. rewrite existsb_exists. split.
  - intros [x [Hin Heq]]. apply String.eqb_eq in Heq. subst. exact Hin.
  - intros Hin. exists key. split; [exact Hin | apply String.eqb_refl].
Qed.

Lemma fresh_keys_NoDup keys : fresh_keys keys = true -> NoDup keys.
Proof.
  induction keys as [| k rest IH]; simpl; intros H; constructor.
  - apply andb_true_iff in H as [Hk _]. apply negb_true_iff in Hk.
    intros Hin. apply mem_In in Hin. congruence.
  - apply andb_true_iff in H as [_ Hrest]. auto.
Qed.

(** Assigning a key the object does not have yet appends the property. *)
Lemma assign_new (map : ValidationMap W) key test :
  ~ In key (Object_keys map) -> assign map key test = map ++ [(key, test)].
Proof.
  induction map as [| [k old] rest IH]; simpl; intros Hnot; [reflexivity |].
  destruct (String.eqb_spec key k) as [-> | Hne].
  - exfalso. apply Hnot. left; reflexivity.
  - rewrite IH; [reflexivity |]. intros Hin. apply Hnot. right; exact Hin.
Qed.

Lemma for_in_appends (pending : list (string * ValidationTreeDescriptor W)) :
  forall acc : ValidationMap W,
    NoDup (map fst pending) ->
    (forall key, In key (map fst pending) -> ~ In key (Object_keys acc)) ->
    for_in Get pending acc =
    acc ++ List.map (fun f => (fst f, compiled_field Get (snd f))) pending.
Proof.
  induction pending as [| [key sub] rest IH]; intros acc Hnd Hfresh;
    simpl in *.
  - rewrite app_nil_r. reflexivity.
  - inversion Hnd as [| ? ? Hnotin Hnd']; subst.
    assert (Hstep : forall test,
               for_in Get rest (assign acc key test) =
               acc ++ (key, test)
                   :: List.map (fun f => (fst f, compiled_field Get (snd f))) rest).
    { intros test.
      rewrite assign_new by (apply Hfresh; left; reflexivity).
      rewrite IH; [rewrite <- app_assoc; reflexivity | exact Hnd' |].
      intros k Hk. unfold Object_keys. rewrite map_app, in_app_iff.
      intros [Hin | [Heq | []]].
      - apply (Hfresh k); [right; exact Hk | exact Hin].
      - simpl in Heq. subst k. contradiction. }
    destruct sub as [test | fields]; apply Hstep.
Qed.

Lemma compiled_field_by_hand (tree : ValidationTreeDescriptor W) :
  literal tree = true -> compiled_field Get tree = by_hand Get tree.
Proof.
  induction tree as [test | fields IH] using descriptor_nested_ind;
    intros Hlit; simpl in *; [reflexivity |].
  apply andb_true_iff in Hlit as [Hkeys Hsubs].
  apply andb_true_iff in Hkeys as [Hfresh _].
  f_equal. fold (for_in Get fields []).
  rewrite for_in_appends;
    [| apply fresh_keys_NoDup; exact Hfresh | intros ? _ []].
  simpl. rewrite forallb_forall in Hsubs. rewrite Forall_forall in IH.
  apply map_ext_in. intros f Hf. f_equal. apply IH; auto.
Qed.

Lemma buildValidationMap_fields (fields : list (string * ValidationTreeDescriptor W)) :
  literal (Node fields) = true ->
  buildValidationMap Get (Node fields) =
  List.map (fun f => (fst f, compiled_field Get (snd f))) fields.
Proof.
  intros Hlit. simpl in Hlit.
  apply andb_true_iff in Hlit as [Hkeys _].
  apply andb_true_iff in Hkeys as [Hfresh _].
  rewrite buildValidationMap_Node, for_in_appends;
    [reflexivity | apply fresh_keys_NoDup; exact Hfresh | intros ? _ []].
Qed.

(** C3.  For a descriptor literal, the validator [ValidationTree] compiles
    returns the same completion in the same world as the by-hand nesting of
    [ValidatorMap] on every input, and the same value on every lookup; the
    field map it builds stores, under each key, the descriptor's value
    unchanged when that value is a function and otherwise the
    [ValidatorMap] of the recursively built map of the nested descriptor. *)
Theorem ValidationTree_by_hand (fields : list (string * ValidationTreeDescriptor W)) :
  literal (Node fields) = true ->
  (forall item w,
      call (ValidationTree Get (Node fields)) item w =
      call (by_hand Get (Node fields)) item w) /\
  (forall key,
      get (ValidationTree Get (Node fields)) key =
      get (by_hand Get (Node fields)) key) /\
  (forall key test,
      In (key, Leaf test) fields ->
      own (buildValidationMap Get (Node fields)) key = Some test) /\
  (forall key nested,
      In (key, Node nested) fields ->
      own (buildValidationMap Get (Node fields)) key =
      Some (ValidatorMap Get (buildValidationMap Get (Node nested)))).
Proof.
  intros Hlit.
  assert (Heq : ValidationTree Get (Node fields) = by_hand Get (Node fields)).
  { exact (compiled_field_by_hand (Node fields) Hlit). }
  assert (Hown : forall key sub,
             In (key, sub) fields ->
             own (buildValidationMap Get (Node fields)) key =
             Some (compiled_field Get sub)).
  { intros key sub Hin. rewrite buildValidationMap_fields by exact Hlit.
    apply own_In.
    - unfold distinct_keys. rewrite map_map. simpl.
      simpl in Hlit. apply andb_true_iff in Hlit as [Hkeys _].
      apply andb_true_iff in Hkeys as [Hfresh _].
      apply fresh_keys_NoDup. exact Hfresh.
    - apply (in_map (fun f => (fst f, compiled_field Get (snd f)))) in Hin.
      exact Hin. }
  repeat split.
  - intros item w. rewrite Heq. reflexivity.
  - intros key. rewrite Heq. reflexivity.
  - intros key test Hin. exact (Hown key (Leaf test) Hin).
  - intros key nested Hin. exact (Hown key (Node nested) Hin).
Qed.
End TreeCompiler.

(** ** The iterable lifter *)

Section Iterables.
Context {W : Type}.
Variable check : callable W.

Lemma isIterable_call item (w : W) :
  call isIterable item w =
  (Normal (VBool (match iterator_of item with
                  | Some _ => negb (js_typeof item =? "string")
                  | None => false
                  end)), w).
Proof. destruct item; reflexivity. Qed.

Lemma for_of_all elems : forall (w : W) rs w',
    mapM (call check) elems w = (Normal rs, w') -> all_truthy rs = true ->
    for_of check elems w = (Normal (VTrue, []), w').
Proof.
  induction elems as [| x l IH]; intros w rs w' Hrun Hall; simpl in *.
  - inversion Hrun; reflexivity.
  - unfold bind in *. step_run (call check x) w; [| discriminate].
    step_run (mapM (call check) l) w0; [| discriminate].
    inversion Hrun; subst. simpl in Hall.
    apply andb_true_iff in Hall as [Hr Hrs].
    rewrite Hr. simpl. eauto.
Qed.

Lemma for_of_first_failure pre : forall x post (w : W) rs w1 r w2,
    mapM (call check) pre w = (Normal rs, w1) -> all_truthy rs = true ->
    call check x w1 = (Normal r, w2) -> truthy r = false ->
    for_of check (pre ++ x :: post) w = (Normal (VFalse, post), w2).
Proof.
  induction pre as [| y pre IH]; intros x post w rs w1 r w2 Hrun Hall Hx Hr;
    simpl in *.
  - inversion Hrun; subst. unfold bind. rewrite Hx, Hr. reflexivity.
  - unfold bind in *. step_run (call check y) w; [| discriminate].
    step_run (mapM (call check) pre) w0; [| discriminate].
    inversion Hrun; subst. simpl in Hall.
    apply andb_true_iff in Hall as [Hy Hrs].
    rewrite Hy. simpl. eauto.
Qed.

Lemma for_of_true_inv elems : forall (w : W) left w',
    for_of check elems w = (Normal (VTrue, left), w') ->
    left = [] /\
    exists rs, mapM (call check) elems w = (Normal rs, w') /\
               all_truthy rs = true.
Proof.
  induction elems as [| x l IH]; intros w left w' Hrun; simpl in *.
  - inversion Hrun; subst. split; [reflexivity |]. exists []. auto.
  - unfold bind in *. step_run (call check x) w; [| discriminate].
    destruct (truthy r) eqn:Hr; simpl in Hrun; [| discriminate].
    destruct (IH _ _ _ Hrun) as [Hleft [rs [Hrs Hall]]].
    split; [exact Hleft |].
    exists (r :: rs). rewrite Hrs. simpl. rewrite Hr. auto.
Qed.

Lemma IterableValidator_call items elems (w : W) :
  iterator_of items = Some elems -> js_typeof items <> "string" ->
  call (IterableValidator check) items w =
  (out <- for_of check elems ;; ret (fst out)) w.
Proof.
  intros Hit Hstr. unfold IterableValidator. cbn [call]. unfold bind at 1.
  rewrite isIterable_call, Hit.
  apply String.eqb_neq in Hstr. rewrite Hstr. reflexivity.
Qed.

(** The answer of the loop is that of the scan [every]. *)
Lemma for_of_every elems : forall w : W,
    (out <- for_of check elems ;; ret (fst out)) w =
    (b <- every (call check) elems ;; ret (VBool b)) w.
Proof.
  induction elems as [| x l IH]; intros w; simpl; [reflexivity |].
  unfold bind in *. step_run (call check x) w; [| reflexivity].
  destruct (truthy r); simpl; [apply IH | reflexivity].
Qed.

Lemma IterableValidator_pure items elems (res : value -> value) :
  iterator_of items = Some elems -> js_typeof items <> "string" ->
  (forall x, In x elems -> forall w, call check x w = (Normal (res x), w)) ->
  forall w,
    call (IterableValidator check) items w =
    (Normal (VBool (forallb (fun x => truthy (res x)) elems)), w).
Proof.
  intros Hit Hstr Hpure w.
  rewrite (IterableValidator_call items w Hit Hstr), for_of_every.
  unfold bind. rewrite (every_pure (call check) res elems Hpure).
  reflexivity.
Qed.

(** C4.  The lifted validator answers [false], without running the element
    validator, on an input that has no iteration capability or is a
    string, so on every string and every number.  On any other input it
    walks the elements once, in order: at the first element the element
    validator rejects it answers [false], the elements after it staying
    with the iterator and the validator not being run on them; when every
    element passes it answers [true], and so it does on an empty
    iterable. *)
Theorem IterableValidator_validate (items : value) (w : W) :
  (iterator_of items = None \/ js_typeof items = "string" ->
   call (IterableValidator check) items w = (Normal VFalse, w)) /\
  (forall s, call (IterableValidator check) (VStr s) w = (Normal VFalse, w)) /\
  (forall n, call (IterableValidator check) (VNum n) w = (Normal VFalse, w)) /\
  (forall elems,
      iterator_of items = Some elems -> js_typeof items <> "string" ->
      (forall pre x post rs w1 r w2,
          elems = pre ++ x :: post ->
          mapM (call check) pre w = (Normal rs, w1) ->
          all_truthy rs = true ->
          call check x w1 = (Normal r, w2) ->
          truthy r = false ->
          call (IterableValidator check) items w = (Normal VFalse, w2) /\
          for_of check elems w = (Normal (VFalse, post), w2)) /\
      (forall w',
          call (IterableValidator check) items w = (Normal VTrue, w') <->
          exists rs,
            mapM (call check) elems w = (Normal rs, w') /\
            all_truthy rs = true) /\
      (forall rs w',
          mapM (call check) elems w = (Normal rs, w') ->
          all_truthy rs = true ->
          for_of check elems w = (Normal (VTrue, []), w')) /\
      (elems = [] ->
       call (IterableValidator check) items w = (Normal VTrue, w))).
Proof.
  split; [| split; [| split]].
  - intros Hnot. unfold IterableValidator. cbn [call]. unfold bind at 1.
    rewrite isIterable_call.
    destruct Hnot as [Hnone | Hstr].
    + rewrite Hnone. reflexivity.
    + rewrite Hstr. destruct (iterator_of items); reflexivity.
  - intros s. reflexivity.
  - intros n. reflexivity.
  - intros elems Hit Hstr.
    pose proof (IterableValidator_call items w Hit Hstr) as Hcall.
    split; [| split; [| split]].
    + intros pre x post rs w1 r w2 -> Hpre Hall Hx Hr.
      pose proof (for_of_first_failure pre x post w Hpre Hall Hx Hr) as Hloop.
      split; [| exact Hloop].
      rewrite Hcall. unfold bind. rewrite Hloop. reflexivity.
    + intros w'. rewrite Hcall. unfold bind. split.
      * intros Hrun.
        step_run (for_of check elems) w; [| discriminate].
        destruct r as [b left]. inversion Hrun; subst.
        apply (for_of_true_inv _ _ E).
      * intros [rs [Hrun Hall]].
        rewrite (for_of_all _ _ Hrun Hall). reflexivity.
    + intros rs w' Hrun Hall. eapply for_of_all; eassumption.
    + intros ->. rewrite Hcall. reflexivity.
Qed.
End Iterables.

(** ** Combinators *)

Section Combinators.
Context {W : Type}.

(** C6.  [optional(check)] answers [true] on [undefined] and [false] on
    [null]; [nullable(check)] answers [false] on [undefined] and [true] on
    [null]; [erratic(check)] answers [true] on both; on every other input
    each of the three is the call of [check] itself. *)
Theorem missing_value_policies (check : callable W) (w : W) :
  (call (optional check) VUndefined w = (Normal VTrue, w) /\
   call (optional check) VNull w = (Normal VFalse, w) /\
   forall item, isMissing item = false ->
                call (optional check) item w = call check item w) /\
  (call (nullable check) VUndefined w = (Normal VFalse, w) /\
   call (nullable check) VNull w = (Normal VTrue, w) /\
   forall item, isMissing item = false ->
                call (nullable check) item w = call check item w) /\
  (call (erratic check) VUndefined w = (Normal VTrue, w) /\
   call (erratic check) VNull w = (Normal VTrue, w) /\
   forall item, isMissing item = false ->
                call (erratic check) item w = call check item w).
Proof.
  repeat split; intros item Hitem; destruct item; try discriminate;
    reflexivity.
Qed.

Lemma compose_call (checks : list (callable W)) item (w : W) :
  call (compose checks) item w =
  if isMissing item then (Normal VFalse, w)
  else (b <- every (fun check => call check item) checks ;; ret (VBool b)) w.
Proof. simpl. destruct (isMissing item); reflexivity. Qed.

Lemma or_call (checks : list (callable W)) item (w : W) :
  call (or checks) item w =
  if isMissing item then (Normal VFalse, w)
  else (b <- some (fun check => call check item) checks ;; ret (VBool b)) w.
Proof. simpl. destruct (isMissing item); reflexivity. Qed.

Lemma bind_bool_inv (c : M W bool) (w w' : W) (b : bool) :
  (x <- c ;; ret (VBool x)) w = (Normal (VBool b), w') <->
  c w = (Normal b, w').
Proof.
  unfold bind, ret. destruct (c w) as [[x | e] w0]; split; intros H;
    inversion H; subst; reflexivity.
Qed.

(** C7.  On a missing input [and(...checks)] and [or(...checks)] answer
    [false] and run no check.  On any other input [and] answers [true]
    exactly when every check passes, and [false] exactly when some check
    is the first to fail; [or] answers [true] exactly when some check is
    the first to pass, and [false] exactly when every check fails; for
    checks without effects, [and] answers whether all of them pass and [or]
    whether at least one does.  With no checks [and] answers [true] on every input that is not missing and
    [or] answers [false] on every input. *)
Theorem and_or_validate (checks : list (callable W)) (item : value) (w : W) :
  (isMissing item = true ->
   call (and checks) item w = (Normal VFalse, w) /\
   call (or checks) item w = (Normal VFalse, w)) /\
  (isMissing item = false ->
   (forall w',
       call (and checks) item w = (Normal VTrue, w') <->
       exists rs,
         mapM (fun check => call check item) checks w = (Normal rs, w') /\
         all_truthy rs = true) /\
   (forall w',
       call (and checks) item w = (Normal VFalse, w') <->
       exists pre check post rs w1 r,
         checks = pre ++ check :: post /\
         mapM (fun check => call check item) pre w = (Normal rs, w1) /\
         all_truthy rs = true /\
         call check item w1 = (Normal r, w') /\ truthy r = false) /\
   (forall w',
       call (or checks) item w = (Normal VTrue, w') <->
       exists pre check post rs w1 r,
         checks = pre ++ check :: post /\
         mapM (fun check => call check item) pre w = (Normal rs, w1) /\
         none_truthy rs = true /\
         call check item w1 = (Normal r, w') /\ truthy r = true) /\
   (forall w',
       call (or checks) item w = (Normal VFalse, w') <->
       exists rs,
         mapM (fun check => call check item) checks w = (Normal rs, w') /\
         none_truthy rs = true)) /\
  (forall res,
      (forall check, In check checks ->
                     forall w0, call check item w0 = (Normal (res check), w0)) ->
      isMissing item = false ->
      call (and checks) item w
      = (Normal (VBool (forallb (fun check => truthy (res check)) checks)), w) /\
      call (or checks) item w
      = (Normal (VBool (existsb (fun check => truthy (res check)) checks)), w)) /\
  (isMissing item = false -> call (and []) item w = (Normal VTrue, w)) /\
  call (or []) item w = (Normal VFalse, w).
Proof.
  unfold and. rewrite !compose_call, !or_call.
  split; [| split; [| split; [| split]]].
  - intros ->. split; reflexivity.
  - intros ->. unfold VTrue, VFalse. repeat split; intros H.
    + apply bind_bool_inv in H. apply every_true_inv. exact H.
    + apply bind_bool_inv. destruct H as [rs [Hrun Hall]].
      eapply every_all; eassumption.
    + apply bind_bool_inv in H. apply every_false_inv. exact H.
    + apply bind_bool_inv.
      destruct H as (pre & c & post & rs & w1 & r & -> & Hpre & Hall & Hc & Hr).
      eapply (every_first_failure (fun check => call check item));
        eassumption.
    + apply bind_bool_inv in H. apply some_true_inv. exact H.
    + apply bind_bool_inv.
      destruct H as (pre & c & post & rs & w1 & r & -> & Hpre & Hnone & Hc & Hr).
      eapply (some_first_success (fun check => call check item));
        eassumption.
    + apply bind_bool_inv in H. apply some_false_inv. exact H.
    + apply bind_bool_inv. destruct H as [rs [Hrun Hnone]].
      eapply some_none; eassumption.
  - intros res Hpure ->. unfold bind.
    rewrite (every_pure (fun check => call check item) res checks Hpure).
    rewrite (some_pure (fun check => call check item) res checks Hpure).
    split; reflexivity.
  - intros ->. reflexivity.
  - destruct (isMissing item); reflexivity.
Qed.

(** C10.  On every input and from every world, [erratic(check)] answers
    [true] exactly when [optional(check)] or [nullable(check)] does, and
    passes exactly when one of the two passes. *)
Theorem erratic_optional_or_nullable (check : callable W) (item : value)
        (w w' : W) :
  (call (erratic check) item w = (Normal VTrue, w') <->
   call (optional check) item w = (Normal VTrue, w') \/
   call (nullable check) item w = (Normal VTrue, w')) /\
  (passes (erratic check) item w w' <->
   passes (optional check) item w w' \/ passes (nullable check) item w w').
Proof.
  unfold passes.
  destruct item; simpl; unfold ret; split; split;
    try (intros H; first [left; exact H | right; exact H]);
    intros [H | H];
    first [ exact H
          | discriminate H
          | destruct H as [r [H Hr]]; inversion H; subst; discriminate Hr ].
Qed.
End Combinators.

(** ** The numeric range *)

Lemma Qlt_bool_iff (a b : Q) : Qlt_bool a b = true <-> (a < b)%Q.
Proof.
  unfold Qlt_bool. rewrite negb_true_iff. split.
  - intros H. apply Qnot_le_lt. intros Hle.
    apply Qle_bool_iff in Hle. congruence.
  - intros Hlt. destruct (Qle_bool b a) eqn:E; [| reflexivity].
    apply Qle_bool_iff in E. exfalso. exact (Qlt_not_le _ _ Hlt E).
Qed.

Lemma js_lt_iff (x y : number) : js_lt x y = true <-> num_lt x y.
Proof.
  destruct x, y; unfold js_lt; simpl;
    try (split; [discriminate | contradiction]);
    try (split; [intros _; exact I | reflexivity]).
  apply Qlt_bool_iff.
Qed.

Lemma js_le_iff (x y : number) : js_le x y = true <-> num_le x y.
Proof.
  destruct x, y; unfold js_le; simpl;
    try (split; [discriminate | contradiction]);
    try (split; [intros _; exact I | reflexivity]).
  unfold Qlt_bool. rewrite negb_involutive. apply Qle_bool_iff.
Qed.

Lemma js_lt_irrefl (x : number) : js_lt x x = false.
Proof.
  destruct (js_lt x x) eqn:E; [| reflexivity].
  apply js_lt_iff in E. destruct x; simpl in E; try contradiction.
  exfalso. exact (Qlt_irrefl _ E).
Qed.

Section NumericRange.
Context {W : Type}.
Variable HostToNumber : value -> number.

(** C8.  On a number [x] the predicate [numberBetween(min, max)] answers
    [true] exactly when [min <= x] and [x < max]; it answers [false] on
    [max] itself; [numberBetween(1989, 2003)] answers [true] on 1989 and
    on 2002 and [false] on 2003. *)
Theorem numberBetween_half_open (min max x : number) (w : W) :
  (exists b,
      call (numberBetween HostToNumber min max) (VNum x) w
      = (Normal (VBool b), w) /\
      (b = true <-> num_le min x /\ num_lt x max)) /\
  call (numberBetween HostToNumber min max) (VNum max) w = (Normal VFalse, w) /\
  call (numberBetween HostToNumber (integer 1989) (integer 2003)) (VNum (integer 1989)) w
  = (Normal VTrue, w) /\
  call (numberBetween HostToNumber (integer 1989) (integer 2003)) (VNum (integer 2002)) w
  = (Normal VTrue, w) /\
  call (numberBetween HostToNumber (integer 1989) (integer 2003)) (VNum (integer 2003)) w
  = (Normal VFalse, w).
Proof.
  split; [| split; [| repeat split]].
  - exists (js_le min x && js_lt x max). split; [reflexivity |].
    rewrite andb_true_iff, js_le_iff, js_lt_iff. reflexivity.
  - simpl. unfold ret. rewrite js_lt_irrefl, andb_false_r. reflexivity.
Qed.

(** C9.  The predicate of [numberBetween(min, max)] does not reject a
    missing input: on [null], which the comparisons read as the number
    zero, it answers [true] whenever [min <= 0] and [0 < max], whereas
    [test], [and] and [or] answer [false] on [null]. *)
Theorem numberBetween_null (min max : number) (w : W) :
  num_le min (Fin 0) -> num_lt (Fin 0) max ->
  ToNumber HostToNumber VNull = Fin 0 /\
  call (numberBetween HostToNumber min max) VNull w = (Normal VTrue, w) /\
  (forall check, call (test check) VNull w = (Normal VFalse, w)) /\
  (forall checks, call (and checks) VNull w = (Normal VFalse, w)) /\
  (forall checks, call (or checks) VNull w = (Normal VFalse, w)).
Proof.
  intros Hmin Hmax. repeat split.
  simpl. unfold ret.
  apply js_le_iff in Hmin. apply js_lt_iff in Hmax.
  rewrite Hmin, Hmax. reflexivity.
Qed.
End NumericRange.

(** ** The specification's sample runs *)

Example record_accepts :
  call (ValidatorMap own_property ab_map)
       (VObj [("a", VStr "x"); ("b", VNum (integer 1))]) tt = (Normal VTrue, tt).
Proof. reflexivity. Qed.

Example record_rejects_missing_field :
  call (ValidatorMap own_property ab_map) (VObj [("a", VStr "x")]) tt
  = (Normal VFalse, tt).
Proof. reflexivity. Qed.

Example record_rejects_missing_input :
  call (ValidatorMap own_property ab_map) VNull tt = (Normal VFalse, tt) /\
  call (ValidatorMap own_property ab_map) VUndefined tt = (Normal VFalse, tt).
Proof. split; reflexivity. Qed.

Example iterable_samples :
  let strings := IterableValidator (W := unit) isString in
  call strings (VArr []) tt = (Normal VTrue, tt) /\
  call strings (VArr [VStr "a"; VStr "b"]) tt = (Normal VTrue, tt) /\
  call strings (VArr [VStr "a"; VNum (integer 1)]) tt = (Normal VFalse, tt) /\
  call strings (VNum (integer 7)) tt = (Normal VFalse, tt) /\
  call strings (VStr "ab") tt = (Normal VFalse, tt) /\
  call strings (VIter [VStr "a"]) tt = (Normal VTrue, tt).
Proof. repeat split. Qed.

Example person_samples :
  let Person := ValidationTree own_property person_tree in
  call Person bob tt = (Normal VTrue, tt) /\
  call Person bob_without_family tt = (Normal VFalse, tt) /\
  exists name given,
    get Person "name" = Normal (Func name) /\
    get name "given" = Normal (Func given) /\
    call given (VStr "Bob") tt = (Normal VTrue, tt) /\
    call given (VNum (integer 123)) tt = (Normal VFalse, tt).
Proof.
  repeat split.
  eexists. eexists. repeat split.
Qed.

(** ** Instances *)

Lemma ab_map_distinct : distinct_keys ab_map.
Proof.
  unfold distinct_keys, ab_map. simpl.
  constructor.
  - simpl. intros [H | []]. discriminate H.
  - constructor; [intros [] | constructor].
Defined.

Lemma ValidatorMap_validate_witness :
  distinct_keys ab_map /\
  call (ValidatorMap own_property ab_map) VNull tt = (Normal VFalse, tt) /\
  call (ValidatorMap own_property ab_map) (VObj [("a", VStr "x")]) tt
  = (Normal VFalse, tt) /\
  exists rs,
    mapM (field_check own_property (VObj [("a", VStr "x"); ("b", VNum (integer 1))]))
         ab_map tt = (Normal rs, tt) /\
    all_truthy rs = true.
Proof.
  split; [exact ab_map_distinct |]. split; [| split].
  - apply (@ValidatorMap_validate unit own_property ab_map VNull tt ab_map_distinct).
    reflexivity.
  - destruct (@ValidatorMap_validate unit own_property ab_map
                (VObj [("a", VStr "x")]) tt ab_map_distinct)
      as [_ Hrest].
    destruct (Hrest eq_refl) as [Hfail _].
    apply (Hfail [("a", isString)] "b" isNumber [] [VTrue] tt VFalse tt);
      reflexivity.
  - destruct (@ValidatorMap_validate unit own_property ab_map
                (VObj [("a", VStr "x"); ("b", VNum (integer 1))]) tt
                ab_map_distinct) as [_ Hrest].
    destruct (Hrest eq_refl) as [_ Htrue].
    apply (Htrue tt). reflexivity.
Defined.

Lemma ValidationTree_by_hand_witness :
  literal xy_tree = true /\
  call (ValidationTree own_property xy_tree)
       (VObj [("x", VObj [("y", VStr "s")])]) tt
  = call (by_hand own_property xy_tree)
         (VObj [("x", VObj [("y", VStr "s")])]) tt /\
  get (ValidationTree own_property xy_tree) "x"
  = get (by_hand own_property xy_tree) "x".
Proof.
  split; [reflexivity |].
  destruct (@ValidationTree_by_hand unit own_property
              [("x", Node [("y", Leaf isString)])] eq_refl)
    as [Hcall [Hget _]].
  split; [apply Hcall | apply Hget].
Defined.

Lemma IterableValidator_validate_witness :
  call (IterableValidator (W := unit) isString)
       (VArr [VStr "a"; VNum (integer 1); VStr "b"]) tt = (Normal VFalse, tt) /\
  for_of (W := unit) isString [VStr "a"; VNum (integer 1); VStr "b"] tt
  = (Normal (VFalse, [VStr "b"]), tt) /\
  call (IterableValidator (W := unit) isString) (VObj []) tt
  = (Normal VFalse, tt).
Proof.
  destruct (@IterableValidator_validate unit isString
              (VArr [VStr "a"; VNum (integer 1); VStr "b"]) tt)
    as [_ [_ [_ Hwalk]]].
  destruct (Hwalk [VStr "a"; VNum (integer 1); VStr "b"] eq_refl)
    as [Hfail _]; [discriminate |].
  destruct (Hfail [VStr "a"] (VNum (integer 1)) [VStr "b"] [VTrue] tt VFalse tt)
    as [Hcall Hleft]; try reflexivity.
  split; [exact Hcall |]. split; [exact Hleft |].
  apply (@IterableValidator_validate unit isString (VObj []) tt).
  left. reflexivity.
Defined.

Lemma missing_value_policies_witness :
  call (optional (W := unit) isString) (VStr "s") tt = (Normal VTrue, tt) /\
  call (nullable (W := unit) isString) (VNum (integer 1)) tt = (Normal VFalse, tt) /\
  call (erratic (W := unit) isString) (VStr "s") tt = (Normal VTrue, tt).
Proof.
  destruct (@missing_value_policies unit isString tt)
    as [[_ [_ Hopt]] [[_ [_ Hnul]] [_ [_ Herr]]]].
  split; [| split].
  - rewrite Hopt; reflexivity.
  - rewrite Hnul; reflexivity.
  - rewrite Herr; reflexivity.
Defined.

Lemma and_or_validate_witness :
  call (and (W := unit) [isNumber; numberBetween no_coercion (integer 1989) (integer 2003)])
       (VNum (integer 2003)) tt = (Normal VFalse, tt) /\
  call (or (W := unit) [isString; isNumber]) (VNum (integer 1)) tt
  = (Normal VTrue, tt) /\
  call (and (W := unit) []) (VStr "s") tt = (Normal VTrue, tt).
Proof.
  split; [| split].
  - destruct (@and_or_validate unit
                [isNumber; numberBetween no_coercion (integer 1989) (integer 2003)]
                (VNum (integer 2003)) tt) as [_ [Hrun _]].
    destruct (Hrun eq_refl) as [_ [Hand _]].
    apply Hand.
    exists [isNumber], (numberBetween no_coercion (integer 1989) (integer 2003)),
      [], [VTrue], tt, VFalse.
    repeat split.
  - destruct (@and_or_validate unit [isString; isNumber]
                (VNum (integer 1)) tt) as [_ [Hrun _]].
    destruct (Hrun eq_refl) as [_ [_ [Hor _]]].
    apply Hor. exists [isString], isNumber, [], [VFalse], tt, VTrue.
    repeat split.
  - destruct (@and_or_validate unit [] (VStr "s") tt) as [_ [_ [_ [Hempty _]]]].
    apply Hempty. reflexivity.
Defined.

Lemma numberBetween_null_witness :
  num_le (Fin (-1)) (Fin 0) /\ num_lt (Fin 0) (Fin 1) /\
  call (numberBetween (W := unit) no_coercion (Fin (-1)) (Fin 1)) VNull tt
  = (Normal VTrue, tt).
Proof.
  assert (Hmin : num_le (Fin (-1)) (Fin 0)) by (simpl; discriminate).
  assert (Hmax : num_lt (Fin 0) (Fin 1)) by reflexivity.
  split; [exact Hmin |]. split; [exact Hmax |].
  apply (@numberBetween_null unit no_coercion (Fin (-1)) (Fin 1) tt Hmin Hmax).
Defined.


(** ** Further properties: lookup and compilation *)

Section MoreLookup.
Context {W : Type}.
Variable Get : value -> string -> value.

(** X1.  On a record validator, lookup of a declared key yields the
    validator stored under it, also when the key is [name] or [length];
    lookup of a name that is neither declared nor inherited from
    [Object.prototype] yields [undefined], so an undeclared [name] or
    [length] never shows the wrapped function's own. *)
Theorem ValidatorMap_lookup_fields (validators : ValidationMap W) :
  distinct_keys validators ->
  (forall key validate,
      In (key, validate) validators ->
      get (ValidatorMap Get validators) key = Normal (Func validate)) /\
  (forall key,
      ~ In key (Object_keys validators) ->
      mem key ObjectPrototype_names = false ->
      get (ValidatorMap Get validators) key = Normal undefined) /\
  (forall key,
      mem key ["name"; "length"] = true ->
      get (ValidatorMap Get validators) key =
      match own validators key with
      | Some validate => Normal (Func validate)
      | None => Normal undefined
      end).
Proof.
  intros Hnd. split; [| split].
  - intros key validate Hin. apply ValidatorMap_get_declared; assumption.
  - intros key Hnot Hproto. apply ValidatorMap_get_foreign; assumption.
  - intros key Hkey. rewrite ValidatorMap_get. unfold has_in_map, get_in_map.
    destruct (own validators key); [reflexivity |].
    assert (Hproto : mem key ObjectPrototype_names = false).
    { unfold mem in Hkey. simpl in Hkey.
      destruct (key =? "name") eqn:Hname.
      - apply String.eqb_eq in Hname. subst key. reflexivity.
      - destruct (key =? "length") eqn:Hlength; [| discriminate Hkey].
        apply String.eqb_eq in Hlength. subst key. reflexivity. }
    rewrite Hproto. reflexivity.
Qed.

(** X2.  On the lifted validator of a record validator, a lookup is handed
    to the record validator exactly when the name is a property of function
    objects (own or inherited); every other name yields [undefined].  On
    the lifted validator of a plain function, [name] and [length] yield the
    function's own. *)
Theorem IterableValidator_lookup_rule (validators : ValidationMap W)
        (key : string) :
  get (IterableValidator (ValidatorMap Get validators)) key =
  (if mem key FunctionPrototype_names || mem key ObjectPrototype_names
   then get (ValidatorMap Get validators) key
   else Normal undefined) /\
  (forall name length (body : value -> M W value),
      get (IterableValidator (Fn name length body)) "name"
      = Normal (Data (VStr name)) /\
      get (IterableValidator (Fn name length body)) "length"
      = Normal (Data (VNum (integer (Z.of_nat length))))).
Proof.
  split.
  - rewrite IterableValidator_get, has_in_ValidatorMap.
    assert (Hown : mem key ["length"; "name"] = true ->
                   mem key FunctionPrototype_names = true).
    { unfold mem. simpl.
      destruct (key =? "length"); [reflexivity |].
      destruct (key =? "name"); [reflexivity | discriminate]. }
    destruct (mem key ["length"; "name"]);
      [rewrite (Hown eq_refl) |]; reflexivity.
  - intros name length body. split; reflexivity.
Qed.

Lemma field_In {B : Type} (fields : list (string * B)) key sub :
  field fields key = Some sub -> In (key, sub) fields.
Proof.
  induction fields as [| [k v] rest IH]; simpl; [discriminate |].
  destruct (String.eqb_spec key k) as [-> | Hne].
  - intros H. inversion H; subst. left; reflexivity.
  - intros H. right. apply IH. exact H.
Qed.

Lemma literal_fields (fields : list (string * ValidationTreeDescriptor W)) :
  literal (Node fields) = true ->
  NoDup (map fst fields) /\
  forall key sub, In (key, sub) fields -> literal sub = true.
Proof.
  simpl. intros Hlit.
  apply andb_true_iff in Hlit as [Hkeys Hsubs].
  apply andb_true_iff in Hkeys as [Hfresh _].
  split; [apply fresh_keys_NoDup; exact Hfresh |].
  intros key sub Hin. rewrite forallb_forall in Hsubs.
  exact (Hsubs (key, sub) Hin).
Qed.

Lemma navigate_by_hand (path : list string) :
  forall tree sub : ValidationTreeDescriptor W,
    literal tree = true -> subtree tree path = Some sub ->
    navigate (by_hand Get tree) path = Some (by_hand Get sub).
Proof.
  induction path as [| key rest IH]; intros tree sub Hlit Hsub; simpl in *.
  - inversion Hsub; reflexivity.
  - destruct tree as [test | fields]; [discriminate |].
    destruct (field fields key) as [next |] eqn:Hfield; [| discriminate].
    apply field_In in Hfield.
    destruct (literal_fields fields Hlit) as [Hnd Hsubs].
    cbn [by_hand].
    rewrite (@ValidatorMap_get_declared W Get _ key (by_hand Get next)).
    + apply IH; [exact (Hsubs key next Hfield) | exact Hsub].
    + unfold distinct_keys. rewrite map_map. simpl. exact Hnd.
    + apply (in_map (fun f => (fst f, by_hand Get (snd f)))) in Hfield.
      exact Hfield.
Qed.

(** X3.  Chained lookup on a compiled descriptor literal follows the
    descriptor: a path of keys that leads to a part of the descriptor leads,
    on the validator, to that part's validator, which is the function itself
    for a leaf and the compiled record validator for a nested descriptor. *)
Theorem ValidationTree_navigate
        (fields : list (string * ValidationTreeDescriptor W))
        (path : list string) (sub : ValidationTreeDescriptor W) :
  literal (Node fields) = true ->
  subtree (Node fields) path = Some sub ->
  navigate (ValidationTree Get (Node fields)) path =
  Some (match sub with
        | Leaf test => test
        | Node _ => ValidationTree Get sub
        end).
Proof.
  intros Hlit Hsub.
  assert (Hsublit : literal sub = true).
  { clear - Hlit Hsub. revert Hlit Hsub. generalize (Node fields) as tree.
    induction path as [| key rest IH]; intros tree Hlit Hsub; simpl in *.
    - inversion Hsub; subst; exact Hlit.
    - destruct tree as [test | fs]; [discriminate |].
      destruct (field fs key) as [next |] eqn:Hfield; [| discriminate].
      apply field_In in Hfield.
      destruct (literal_fields fs Hlit) as [_ Hsubs].
      exact (IH next (Hsubs key next Hfield) Hsub). }
  change (ValidationTree Get (Node fields))
    with (compiled_field Get (Node fields)).
  rewrite (@compiled_field_by_hand W Get (Node fields) Hlit).
  rewrite (@navigate_by_hand path (Node fields) sub Hlit Hsub).
  rewrite <- (@compiled_field_by_hand W Get sub Hsublit).
  destruct sub; reflexivity.
Qed.

(** X4.  The field map compiled from a descriptor literal has the keys of
    the descriptor, in the descriptor's order. *)
Theorem buildValidationMap_keys
        (fields : list (string * ValidationTreeDescriptor W)) :
  literal (Node fields) = true ->
  Object_keys (buildValidationMap Get (Node fields)) = map fst fields.
Proof.
  intros Hlit. rewrite (@buildValidationMap_fields W Get fields Hlit).
  unfold Object_keys. rewrite map_map. reflexivity.
Qed.

(** X5.  A record validator without fields accepts every input that is not
    missing, and so does the validator [ValidationTree] makes of a function
    in place of a descriptor: the function is never run and declares no
    field. *)
Theorem empty_record_validator (item : value) (w : W) :
  call (ValidatorMap Get []) item w = (Normal (VBool (negb (isMissing item))), w) /\
  (forall test : callable W,
      call (ValidationTree Get (Leaf test)) item w
      = (Normal (VBool (negb (isMissing item))), w) /\
      Object_keys (buildValidationMap Get (Leaf test)) = []).
Proof.
  split; [| intros test; split]; try reflexivity;
    simpl; destruct (isMissing item); reflexivity.
Qed.
End MoreLookup.

(** ** Further properties: scans and combinators *)

Section MoreScans.
Context {W A : Type}.
Variable cb : A -> M W value.

Lemma every_first_throw pre : forall x post w rs w1 e w2,
    mapM cb pre w = (Normal rs, w1) -> all_truthy rs = true ->
    cb x w1 = (Throw e, w2) ->
    every cb (pre ++ x :: post) w = (Throw e, w2).
Proof.
  induction pre as [| y pre IH]; intros x post w rs w1 e w2 Hrun Hall Hx;
    simpl in *.
  - inversion Hrun; subst. unfold bind. rewrite Hx. reflexivity.
  - unfold bind in *. step_run (cb y) w; [| discriminate].
    step_run (mapM cb pre) w0; [| discriminate].
    inversion Hrun; subst. simpl in Hall.
    apply andb_true_iff in Hall as [Hy Hrs].
    rewrite Hy. eauto.
Qed.

Lemma some_first_throw pre : forall x post w rs w1 e w2,
    mapM cb pre w = (Normal rs, w1) -> none_truthy rs = true ->
    cb x w1 = (Throw e, w2) ->
    some cb (pre ++ x :: post) w = (Throw e, w2).
Proof.
  induction pre as [| y pre IH]; intros x post w rs w1 e w2 Hrun Hnone Hx;
    simpl in *.
  - inversion Hrun; subst. unfold bind. rewrite Hx. reflexivity.
  - unfold bind in *. step_run (cb y) w; [| discriminate].
    step_run (mapM cb pre) w0; [| discriminate].
    inversion Hrun; subst. simpl in Hnone.
    apply andb_true_iff in Hnone as [Hy Hrs].
    apply negb_true_iff in Hy. rewrite Hy. eauto.
Qed.

Lemma every_app l1 l2 : forall w,
    every cb (l1 ++ l2) w =
    match every cb l1 w with
    | (Normal true, w1) => every cb l2 w1
    | other => other
    end.
Proof.
  induction l1 as [| x l1 IH]; intros w; simpl; [reflexivity |].
  unfold bind. step_run (cb x) w; [| reflexivity].
  destruct (truthy r); [apply IH | reflexivity].
Qed.

Lemma some_app l1 l2 : forall w,
    some cb (l1 ++ l2) w =
    match some cb l1 w with
    | (Normal false, w1) => some cb l2 w1
    | other => other
    end.
Proof.
  induction l1 as [| x l1 IH]; intros w; simpl; [reflexivity |].
  unfold bind. step_run (cb x) w; [| reflexivity].
  destruct (truthy r); [reflexivity | apply IH].
Qed.

Lemma mapM_In l : forall x w rs w',
    mapM cb l w = (Normal rs, w') -> In x l ->
    exists w1 r w2, cb x w1 = (Normal r, w2) /\ In r rs.
Proof.
  induction l as [| y l IH]; intros x w rs w' Hrun Hin; simpl in *;
    [contradiction |].
  unfold bind in Hrun. step_run (cb y) w; [| discriminate].
  step_run (mapM cb l) w0; [| discriminate].
  inversion Hrun; subst.
  destruct Hin as [-> | Hin].
  - exists w, r, w0. split; [exact E | left; reflexivity].
  - destruct (IH x w0 r0 w' E0 Hin) as (w1 & r' & w2 & Hx & Hr).
    exists w1, r', w2. split; [exact Hx | right; exact Hr].
Qed.
End MoreScans.

Section MoreCombinators.
Context {W : Type}.
Variable Get : value -> string -> value.

Lemma validate_loop_boolean (validators : ValidationMap W) item keys :
  forall w r w',
    validate_loop Get validators keys item w = (Normal r, w') ->
    exists b, r = VBool b.
Proof.
  induction keys as [| key rest IH]; intros w r w' Hrun; simpl in Hrun.
  - inversion Hrun. exists true. reflexivity.
  - destruct (get_in_map validators key) as [v | validate | name];
      try discriminate.
    unfold bind in Hrun.
    step_run (call validate (Get item key)) w; [| discriminate].
    destruct (truthy r0); simpl in Hrun.
    + eapply IH; eassumption.
    + inversion Hrun. exists false. reflexivity.
Qed.

Lemma for_of_boolean (check : callable W) elems :
  forall w r left w',
    for_of check elems w = (Normal (r, left), w') -> exists b, r = VBool b.
Proof.
  induction elems as [| x l IH]; intros w r left w' Hrun; simpl in Hrun.
  - inversion Hrun. exists true. reflexivity.
  - unfold bind in Hrun. step_run (call check x) w; [| discriminate].
    destruct (truthy r0); simpl in Hrun.
    + eapply IH; eassumption.
    + inversion Hrun. exists false. reflexivity.
Qed.

(** X6.  Whatever the checks return, a record validator, a lifted validator,
    [and] and [or] answer with a boolean whenever they answer. *)
Theorem boolean_answers (validators : ValidationMap W) (check : callable W)
        (checks : list (callable W)) (item : value) (w : W) (r : value) (w' : W) :
  (call (ValidatorMap Get validators) item w = (Normal r, w') ->
   exists b, r = VBool b) /\
  (call (IterableValidator check) item w = (Normal r, w') ->
   exists b, r = VBool b) /\
  (call (and checks) item w = (Normal r, w') -> exists b, r = VBool b) /\
  (call (or checks) item w = (Normal r, w') -> exists b, r = VBool b).
Proof.
  split; [| split; [| split]].
  - simpl. destruct (isMissing item).
    + intros H. inversion H. exists false. reflexivity.
    + apply validate_loop_boolean.
  - unfold IterableValidator. cbn [call]. unfold bind at 1.
    rewrite isIterable_call.
    destruct (iterator_of item) as [elems |].
    + destruct (negb (js_typeof item =? "string")); simpl.
      * unfold bind. intros H.
        step_run (for_of check elems) w; [| discriminate].
        destruct r0 as [v left]. inversion H; subst.
        eapply for_of_boolean; eassumption.
      * intros H. inversion H. exists false. reflexivity.
    + simpl. intros H. inversion H. exists false. reflexivity.
  - unfold and. rewrite compose_call. destruct (isMissing item).
    + intros H. inversion H. exists false. reflexivity.
    + unfold bind.
      destruct (every (fun c => call c item) checks w) as [[b | e] w0];
        intros H; inversion H. exists b. reflexivity.
  - rewrite or_call. destruct (isMissing item).
    + intros H. inversion H. exists false. reflexivity.
    + unfold bind.
      destruct (some (fun c => call c item) checks w) as [[b | e] w0];
        intros H; inversion H. exists b. reflexivity.
Qed.

(** X7.  A record validator and a lifted validator catch nothing: when the
    validators before it pass and a field validator, or the element
    validator on some element, throws, the validator throws the same value
    from the same world, and nothing after it is run. *)
Theorem exceptions_propagate_from_fields
        (validators : ValidationMap W) (check : callable W)
        (item : value) (w : W) :
  distinct_keys validators ->
  (forall pre k validate post rs w1 e w2,
      isMissing item = false ->
      validators = pre ++ (k, validate) :: post ->
      mapM (field_check Get item) pre w = (Normal rs, w1) ->
      all_truthy rs = true ->
      call validate (Get item k) w1 = (Throw e, w2) ->
      call (ValidatorMap Get validators) item w = (Throw e, w2)) /\
  (forall elems pre x post rs w1 e w2,
      iterator_of item = Some elems -> js_typeof item <> "string" ->
      elems = pre ++ x :: post ->
      mapM (call check) pre w = (Normal rs, w1) ->
      all_truthy rs = true ->
      call check x w1 = (Throw e, w2) ->
      call (IterableValidator check) item w = (Throw e, w2)).
Proof.
  intros Hnd. split.
  - intros pre k validate post rs w1 e w2 Hitem -> Hpre Hall Hthrow.
    rewrite ValidatorMap_call, Hitem by exact Hnd. unfold bind.
    rewrite (every_first_throw (field_check Get item) pre (k, validate) post
               w Hpre Hall Hthrow).
    reflexivity.
  - intros elems pre x post rs w1 e w2 Hit Hstr -> Hpre Hall Hthrow.
    rewrite (IterableValidator_call check item w Hit Hstr), for_of_every.
    unfold bind.
    rewrite (every_first_throw (call check) pre x post w Hpre Hall Hthrow).
    reflexivity.
Qed.

(** X8.  [and] and [or] catch nothing either: when the checks before it
    pass (for [and]) or fail (for [or]) and a check throws, the combinator
    throws the same value from the same world, and no later check is run. *)
Theorem exceptions_propagate_from_checks
        (pre : list (callable W)) (check : callable W)
        (post : list (callable W)) (item : value) (w : W) rs w1 e w2 :
  isMissing item = false ->
  mapM (fun check => call check item) pre w = (Normal rs, w1) ->
  call check item w1 = (Throw e, w2) ->
  (all_truthy rs = true ->
   call (and (pre ++ check :: post)) item w = (Throw e, w2)) /\
  (none_truthy rs = true ->
   call (or (pre ++ check :: post)) item w = (Throw e, w2)).
Proof.
  intros Hitem Hpre Hthrow. unfold and.
  rewrite compose_call, or_call, Hitem. unfold bind. split; intros Hrs.
  - rewrite (every_first_throw (fun c => call c item) pre check post
               w Hpre Hrs Hthrow).
    reflexivity.
  - rewrite (some_first_throw (fun c => call c item) pre check post
               w Hpre Hrs Hthrow).
    reflexivity.
Qed.

(** X9.  Of two nested missing-value policies the outer one decides: on
    every input, wrapping a wrapped check is wrapping the check itself, so
    [optional(nullable(check))] still rejects [null] and
    [nullable(optional(check))] still rejects [undefined]. *)
Theorem outer_policy_decides (outer inner : policy) (check : callable W)
        (item : value) (w : W) :
  call (wrap outer (wrap inner check)) item w = call (wrap outer check) item w.
Proof.
  destruct outer, inner, item; reflexivity.
Qed.

(** X10.  Nesting [and] in [and], or [or] in [or], changes nothing: a check
    list with a nested combinator among the checks behaves, on every input
    and from every world, as the list with the nested checks spliced in. *)
Theorem nested_combinators_flatten (xs ys zs : list (callable W))
        (item : value) (w : W) :
  call (and (xs ++ and ys :: zs)) item w = call (and (xs ++ ys ++ zs)) item w /\
  call (or (xs ++ or ys :: zs)) item w = call (or (xs ++ ys ++ zs)) item w.
Proof.
  unfold and. rewrite !compose_call, !or_call.
  destruct (isMissing item) eqn:Hitem; [split; reflexivity |].
  unfold bind. split.
  - rewrite !every_app.
    destruct (every (fun c => call c item) xs w) as [[[|] | e] w1];
      try reflexivity.
    cbn [every]. unfold bind. rewrite compose_call, Hitem. unfold bind.
    rewrite every_app.
    destruct (every (fun c => call c item) ys w1) as [[[|] | e] w2];
      reflexivity.
  - rewrite !some_app.
    destruct (some (fun c => call c item) xs w) as [[[|] | e] w1];
      try reflexivity.
    cbn [some]. unfold bind. rewrite or_call, Hitem. unfold bind.
    rewrite some_app.
    destruct (some (fun c => call c item) ys w1) as [[[|] | e] w2];
      reflexivity.
Qed.

(** X11.  [unsafeTest(check)] is [check] on every input.  [test(check)] is
    [check] on every input that is not missing and [false], with [check]
    not run, on a missing one; it accepts exactly what [and(check)]
    accepts, with the same effects, but hands on the result of [check] as
    it is where [and] answers with a boolean. *)
Theorem test_and_unsafeTest (check : callable W) (item : value) (w : W) :
  call (unsafeTest check) item w = call check item w /\
  (isMissing item = true -> call (test check) item w = (Normal VFalse, w)) /\
  (isMissing item = false -> call (test check) item w = call check item w) /\
  (forall w', passes (test check) item w w' <-> passes (and [check]) item w w').
Proof.
  split; [reflexivity |]. split; [| split].
  - intros Hitem. simpl. rewrite Hitem. reflexivity.
  - intros Hitem. simpl. rewrite Hitem. reflexivity.
  - intros w'. unfold passes, and. rewrite compose_call. simpl.
    destruct (isMissing item); [tauto |].
    unfold bind, ret.
    destruct (call check item w) as [[r | e] w0].
    + destruct (truthy r) eqn:Hr; split; intros [r' [H Hr']];
        inversion H; subst; try discriminate; try congruence.
      * exists VTrue. split; reflexivity.
      * exists r. split; [reflexivity | exact Hr].
    + split; intros [r' [H _]]; discriminate H.
Qed.
End MoreCombinators.

(** ** Further properties: required fields *)

Section RequiredFields.
Context {W : Type}.
Variable Get : value -> string -> value.
Variable HostToNumber : value -> number.


(** X13.  A record validator never accepts an input on which a field with
    a required validator reads as [undefined]: a declared field is
    mandatory unless its validator says otherwise. *)
Theorem absent_required_field (validators : ValidationMap W)
        (k : string) (validate : callable W) (item : value) (w w' : W) :
  distinct_keys validators ->
  In (k, validate) validators ->
  required validate ->
  Get item k = VUndefined ->
  call (ValidatorMap Get validators) item w <> (Normal VTrue, w').
Proof.
  intros Hnd Hin Hreq Habsent Hrun.
  rewrite ValidatorMap_call in Hrun by exact Hnd.
  destruct (isMissing item); [discriminate Hrun |].
  apply bind_bool_inv in Hrun. apply every_true_inv in Hrun.
  destruct Hrun as [rs [Hrun Hall]].
  destruct (mapM_In (field_check Get item) validators (k, validate) w Hrun Hin)
    as (w1 & r & w2 & Hcall & Hr).
  unfold field_check in Hcall. simpl in Hcall.
  rewrite Habsent, (Hreq w1) in Hcall. inversion Hcall; subst.
  unfold all_truthy in Hall. rewrite forallb_forall in Hall.
  specialize (Hall _ Hr). discriminate Hall.
Qed.
End RequiredFields.

(** ** Further properties: numbers and leaf predicates *)

Lemma num_le_lt_trans (a b c : number) : num_le a b -> num_lt b c -> num_lt a c.
Proof.
  destruct a, b, c; simpl; try tauto.
  apply Qle_lt_trans.
Qed.

Lemma num_lt_trans (a b c : number) : num_lt a b -> num_lt b c -> num_lt a c.
Proof.
  destruct a, b, c; simpl; try tauto.
  apply Qlt_trans.
Qed.

Lemma num_le_trans (a b c : number) : num_le a b -> num_le b c -> num_le a c.
Proof.
  destruct a, b, c; simpl; try tauto.
  apply Qle_trans.
Qed.

Section MoreLeaves.
Context {W : Type}.
Variable HostToNumber : value -> number.

Lemma guarded_range_call (min max : number) (item : value) (w : W) :
  call (and [isNumber; numberBetween HostToNumber min max]) item w =
  (Normal (VBool (match item with
                  | VNum x => js_le min x && js_lt x max
                  | _ => false
                  end)), w).
Proof.
  destruct item; try reflexivity.
  simpl. unfold bind, ret. simpl.
  destruct (js_le min n && js_lt n max); reflexivity.
Qed.

(** X14.  [and(isNumber, numberBetween(min, max))], the guarded form the
    usage file writes, accepts exactly the numbers [x] with [min <= x] and
    [x < max]; unlike the bare range predicate it rejects [null], booleans
    and every other value that is not a number, and it has no effect. *)
Theorem guarded_range (min max : number) (item : value) (w : W) :
  call (and [isNumber; numberBetween HostToNumber min max]) item w =
  (Normal (VBool (match item with
                  | VNum x => js_le min x && js_lt x max
                  | _ => false
                  end)), w) /\
  (forall w',
      call (and [isNumber; numberBetween HostToNumber min max]) item w
      = (Normal VTrue, w') <->
      w' = w /\ exists x, item = VNum x /\ num_le min x /\ num_lt x max).
Proof.
  pose proof (guarded_range_call min max item w) as Hcall.
  split; [exact Hcall |].
  intros w'. rewrite Hcall. split.
  - intros H. inversion H; subst. split; [reflexivity |].
    destruct item; try discriminate.
    exists n. apply andb_true_iff in H1 as [Hle Hlt].
    apply js_le_iff in Hle. apply js_lt_iff in Hlt. auto.
  - intros [-> [x [-> [Hle Hlt]]]].
    apply js_le_iff in Hle. apply js_lt_iff in Hlt.
    rewrite Hle, Hlt. reflexivity.
Qed.

(** X15.  [numberBetween(min, max)] accepts something only when
    [min < max]: with equal or swapped bounds it rejects every input.  It
    rejects [undefined] whatever the bounds, and reads [true] as 1 and
    [false] as 0. *)
Theorem numberBetween_bounds (min max : number) (item : value) (w : W) :
  (call (numberBetween HostToNumber min max) item w = (Normal VTrue, w) ->
   num_lt min max) /\
  call (numberBetween HostToNumber min max) VUndefined w = (Normal VFalse, w) /\
  call (numberBetween HostToNumber min max) (VBool true) w
  = call (numberBetween HostToNumber min max) (VNum (integer 1)) w /\
  call (numberBetween HostToNumber min max) (VBool false) w
  = call (numberBetween HostToNumber min max) (VNum (integer 0)) w.
Proof.
  split; [| repeat split].
  intros H. simpl in H. unfold ret in H. inversion H as [Hb].
  apply andb_true_iff in Hb as [Hle Hlt].
  apply js_le_iff in Hle. apply js_lt_iff in Hlt.
  exact (num_le_lt_trans _ _ _ Hle Hlt).
Qed.

(** X16.  [isValidNumber] accepts exactly the numbers other than NaN, the
    two infinities included; it never throws and has no effect. *)
Theorem isValidNumber_accepts (item : value) (w : W) :
  (exists b, call isValidNumber item w = (Normal (VBool b), w)) /\
  (forall w',
      call isValidNumber item w = (Normal VTrue, w') <->
      w' = w /\ exists n, item = VNum n /\ n <> NaN) /\
  call isValidNumber (VNum PosInf) w = (Normal VTrue, w) /\
  call isValidNumber (VNum NegInf) w = (Normal VTrue, w) /\
  call isValidNumber (VNum NaN) w = (Normal VFalse, w).
Proof.
  split; [| split; [| repeat split]].
  - destruct item as [| | b | [| | |q] | s | props | elems | elems];
      eexists; reflexivity.
  - intros w'. split.
    + destruct item as [| | b | [| | |q] | s | props | elems | elems];
        intros H; inversion H; subst; (split; [reflexivity |]);
          eexists; (split; [reflexivity | discriminate]).
    + intros [-> [n [-> Hn]]]. destruct n; try reflexivity. congruence.
Qed.

(** X17.  [isIterable] accepts exactly the arrays and the other iterable
    objects: it rejects strings, and rejects [null] and [undefined]
    without throwing.  It accepts whatever [isArray] accepts, and a lifted
    validator accepts nothing [isIterable] rejects. *)
Theorem isIterable_accepts (check : callable W) (item : value) (w : W) :
  (forall w',
      call isIterable item w = (Normal VTrue, w') <->
      w' = w /\ exists elems, item = VArr elems \/ item = VIter elems) /\
  (exists b, call isIterable item w = (Normal (VBool b), w)) /\
  (call isArray item w = (Normal VTrue, w) ->
   call isIterable item w = (Normal VTrue, w)) /\
  (forall w',
      call (IterableValidator check) item w = (Normal VTrue, w') ->
      call isIterable item w = (Normal VTrue, w)).
Proof.
  split; [| split; [| split]].
  - intros w'. split.
    + destruct item; intros H; inversion H; subst;
        (split; [reflexivity |]); eexists; eauto.
    + intros [-> [elems [-> | ->]]]; reflexivity.
  - destruct item; eexists; reflexivity.
  - destruct item; intros H; try discriminate H; reflexivity.
  - intros w'. unfold IterableValidator. cbn [call]. unfold bind at 1.
    rewrite isIterable_call.
    destruct (iterator_of item) as [elems |];
      [| intros H; discriminate H].
    destruct (negb (js_typeof item =? "string")); simpl;
      [reflexivity | intros H; discriminate H].
Qed.

(** X18.  [isValueOf(expected)] compares with [===]: for a string literal
    it accepts that string and nothing else; for a literal other than NaN
    it accepts the literal's own value; [isValueOf(NaN)] accepts nothing,
    NaN included; no literal makes it accept an object or an array. *)
Theorem isValueOf_accepts (expected : primitive) (item : value) (w : W) :
  (forall s w',
      call (isValueOf (PStr s)) item w = (Normal VTrue, w') <->
      w' = w /\ item = VStr s) /\
  (expected <> PNum NaN ->
   call (isValueOf expected) (value_of expected) w = (Normal VTrue, w)) /\
  call (isValueOf (PNum NaN)) item w = (Normal VFalse, w) /\
  (forall props elems,
      call (isValueOf expected) (VObj props) w = (Normal VFalse, w) /\
      call (isValueOf expected) (VArr elems) w = (Normal VFalse, w) /\
      call (isValueOf expected) (VIter elems) w = (Normal VFalse, w)).
Proof.
  split; [| split; [| split]].
  - intros s w'. simpl. unfold ret. split.
    + intros H. inversion H as [[Hb Hw]]. split; [reflexivity |].
      destruct item; simpl in Hb; try discriminate Hb.
      apply String.eqb_eq in Hb. subst. reflexivity.
    + intros [-> ->]. simpl. rewrite String.eqb_refl. reflexivity.
  - intros Hexp. destruct expected as [| | b | n | s]; simpl; unfold ret.
    + reflexivity.
    + reflexivity.
    + rewrite Bool.eqb_reflx. reflexivity.
    + destruct n; simpl; try reflexivity; [congruence |].
      rewrite (proj2 (Qeq_bool_iff q q) (Qeq_refl q)). reflexivity.
    + rewrite String.eqb_refl. reflexivity.
  - destruct item as [| | b | n | s | props | elems | elems]; try reflexivity.
    destruct n; reflexivity.
  - intros props elems. destruct expected; repeat split.
Qed.
End MoreLeaves.

(** ** Further properties: the sample shapes *)

Section MoreUsage.
Context {W : Type}.
Variable Get : value -> string -> value.
Variable HostToNumber : value -> number.

Lemma isIDType_call (type : string) (v : value) (w : W) :
  call (isIDType type) v w =
  (Normal (VBool (match v with
                  | VStr s => String.prefix type s
                  | _ => false
                  end)), w).
Proof.
  destruct v; try reflexivity.
  simpl. unfold bind, ret. simpl.
  destruct (String.prefix type s); reflexivity.
Qed.

Lemma isNonEmptyString_call (v : value) (w : W) :
  call (isNonEmptyString Get HostToNumber) v w =
  (Normal (VBool (match v with
                  | VStr s => (1 <=? String.length s)%nat
                  | _ => false
                  end)), w).
Proof.
  destruct v; try reflexivity.
  simpl. unfold bind, ret. simpl.
  destruct (String.length s); reflexivity.
Qed.

Lemma isValueOf_string_call (tag : string) (v : value) (w : W) :
  call (isValueOf (PStr tag)) v w =
  (Normal (VBool (match v with
                  | VStr s => s =? tag
                  | _ => false
                  end)), w).
Proof. destruct v; reflexivity. Qed.

Lemma video_keys_distinct (a b c d : callable W) :
  distinct_keys [("id", a); ("type", b); ("year", c); ("title", d)].
Proof.
  unfold distinct_keys. simpl.
  repeat constructor; simpl; intuition discriminate.
Qed.

Lemma video_call (tag : string) (first last : Z) (item : value) (w : W) :
  call (ValidatorMap Get
          [("id", isIDType "video:");
           ("type", isValueOf (PStr tag));
           ("year", and [isNumber;
                         numberBetween HostToNumber (integer first) (integer last)]);
           ("title", isNonEmptyString Get HostToNumber)]) item w =
  (Normal (VBool (negb (isMissing item)
                  && video_fields Get tag first last item)), w).
Proof.
  rewrite ValidatorMap_call by apply video_keys_distinct.
  destruct (isMissing item); [reflexivity |].
  unfold video_fields. cbn [every negb andb].
  unfold bind, field_check. cbn [fst snd].
  rewrite isIDType_call. cbn [truthy].
  destruct (match Get item "id" with
            | VStr id => String.prefix "video:" id
            | _ => false
            end); [| reflexivity].
  rewrite isValueOf_string_call. cbn [truthy].
  destruct (match Get item "type" with
            | VStr t => t =? tag
            | _ => false
            end); [| reflexivity].
  rewrite guarded_range_call. cbn [truthy].
  destruct (match Get item "year" with
            | VNum y => js_le (integer first) y && js_lt y (integer last)
            | _ => false
            end); [| reflexivity].
  rewrite isNonEmptyString_call. cbn [truthy].
  destruct (match Get item "title" with
            | VStr t => (1 <=? String.length t)%nat
            | _ => false
            end); reflexivity.
Qed.

Lemma isVHS_call (item : value) (w : W) :
  call (isVHS Get HostToNumber) item w =
  (Normal (VBool (negb (isMissing item)
                  && video_fields Get "VHS" 1989 2003 item)), w).
Proof. apply video_call. Qed.

Lemma isDVD_call (item : value) (w : W) :
  call (isDVD Get HostToNumber) item w =
  (Normal (VBool (negb (isMissing item)
                  && video_fields Get "DVD" 1998 2008 item)), w).
Proof. apply video_call. Qed.

Lemma isVideo_call (item : value) (w : W) :
  call (isVideo Get HostToNumber) item w =
  (Normal (VBool (negb (isMissing item)
                  && (video_fields Get "VHS" 1989 2003 item
                      || video_fields Get "DVD" 1998 2008 item))), w).
Proof.
  unfold isVideo. rewrite or_call.
  destruct (isMissing item) eqn:Hitem; [reflexivity |].
  cbn [some negb andb]. unfold bind.
  rewrite isVHS_call, Hitem. cbn [truthy negb andb].
  destruct (video_fields Get "VHS" 1989 2003 item); [reflexivity |].
  rewrite isDVD_call, Hitem. cbn [truthy negb andb orb].
  destruct (video_fields Get "DVD" 1998 2008 item); reflexivity.
Qed.

Lemma video_fields_year (tag : string) (first last : Z) (item : value) :
  video_fields Get tag first last item = true ->
  exists y, Get item "year" = VNum y /\
            num_le (integer first) y /\ num_lt y (integer last).
Proof.
  unfold video_fields. intros H.
  apply andb_true_iff in H as [H _]. apply andb_true_iff in H as [_ H].
  destruct (Get item "year"); try discriminate H.
  apply andb_true_iff in H as [Hle Hlt].
  apply js_le_iff in Hle. apply js_lt_iff in Hlt. eauto.
Qed.

Lemma video_fields_type (tag : string) (first last : Z) (item : value) :
  video_fields Get tag first last item = true -> Get item "type" = VStr tag.
Proof.
  unfold video_fields. intros H.
  apply andb_true_iff in H as [H _]. apply andb_true_iff in H as [H _].
  apply andb_true_iff in H as [_ H].
  destruct (Get item "type"); try discriminate H.
  apply String.eqb_eq in H. subst. reflexivity.
Qed.

(** X19.  The sample validators [isVHS], [isDVD] and [isVideo] never throw
    and have no effect, although the [id] callback throws on a value that
    is not a string: the [isString] check in front keeps such values from
    it.  Each accepts exactly the inputs that are not missing and whose
    [id] is a string starting with ["video:"], whose [type] is the tag,
    whose [year] is a number in the window and whose [title] is a string
    that is not empty; [isVideo] accepts what either accepts. *)
Theorem sample_videos (item : value) (w : W) :
  call (isVHS Get HostToNumber) item w =
  (Normal (VBool (negb (isMissing item)
                  && video_fields Get "VHS" 1989 2003 item)), w) /\
  call (isDVD Get HostToNumber) item w =
  (Normal (VBool (negb (isMissing item)
                  && video_fields Get "DVD" 1998 2008 item)), w) /\
  call (isVideo Get HostToNumber) item w =
  (Normal (VBool (negb (isMissing item)
                  && (video_fields Get "VHS" 1989 2003 item
                      || video_fields Get "DVD" 1998 2008 item))), w) /\
  (forall v, js_typeof v <> "string" ->
             call (startsWith "video:") v w = (Throw TypeError, w)).
Proof.
  split; [apply isVHS_call |]. split; [apply isDVD_call |].
  split; [apply isVideo_call |].
  intros v Hstr. destruct v; try reflexivity.
  exfalso. apply Hstr. reflexivity.
Qed.

(** X20.  No input is accepted by both [isVHS] and [isDVD], whatever the
    worlds they are run in; and an input [isVideo] accepts has a numeric
    [year] with [1989 <= year < 2008]. *)
Theorem sample_videos_disjoint (item : value) (w1 w1' w2 w2' : W) :
  ~ (call (isVHS Get HostToNumber) item w1 = (Normal VTrue, w1') /\
     call (isDVD Get HostToNumber) item w2 = (Normal VTrue, w2')) /\
  (call (isVideo Get HostToNumber) item w1 = (Normal VTrue, w1') ->
   exists y, Get item "year" = VNum y /\
             num_le (integer 1989) y /\ num_lt y (integer 2008)).
Proof.
  split.
  - intros [Hvhs Hdvd].
    rewrite isVHS_call in Hvhs. rewrite isDVD_call in Hdvd.
    injection Hvhs as Hv _. injection Hdvd as Hd _.
    apply andb_true_iff in Hv as [_ Hv]. apply andb_true_iff in Hd as [_ Hd].
    apply video_fields_type in Hv. apply video_fields_type in Hd.
    rewrite Hv in Hd. discriminate Hd.
  - intros H. rewrite isVideo_call in H. injection H as Hb _.
    apply andb_true_iff in Hb as [_ Hb].
    apply orb_true_iff in Hb as [Hv | Hd].
    + destruct (video_fields_year _ _ _ _ Hv) as (y & Hy & Hle & Hlt).
      exists y. split; [exact Hy |]. split; [exact Hle |].
      apply (num_lt_trans y (integer 2003) (integer 2008) Hlt).
      reflexivity.
    + destruct (video_fields_year _ _ _ _ Hd) as (y & Hy & Hle & Hlt).
      exists y. split; [exact Hy |]. split; [| exact Hlt].
      apply (num_le_trans (integer 1989) (integer 1998) y); [| exact Hle].
      simpl. discriminate.
Qed.
End MoreUsage.

Section MoreContacts.
Context {W : Type}.
Variable Get : value -> string -> value.
Variable HostToNumber : value -> number.

(** X23.  The [contactOptions] validator of the usage file rejects, without
    throwing, every collection whose element at index 0 reads as
    [undefined], the empty array among them: a customer needs a first
    contact. *)
Theorem contactOptions_needs_first (items : value) (w : W) :
  Get items "0" = VUndefined ->
  call (contactOptions Get HostToNumber) items w = (Normal VFalse, w).
Proof.
  intros Habsent. unfold contactOptions, and. rewrite compose_call.
  destruct (isMissing items) eqn:Hitems; [reflexivity |].
  cbn [every]. unfold bind at 1 2. rewrite isIterable_call.
  destruct (iterator_of items) as [elems |]; [| reflexivity].
  destruct (negb (js_typeof items =? "string")); [| reflexivity].
  cbn [truthy]. unfold bind at 1.
  assert (Hfirst : call (test (firstIsPrimary Get HostToNumber)) items w
                   = (Normal VFalse, w)).
  { cbn [call test]. rewrite Hitems.
    destruct items; try discriminate Hitems;
      cbn [call firstIsPrimary]; rewrite Habsent; reflexivity. }
  rewrite Hfirst. reflexivity.
Qed.
End MoreContacts.

(** ** Further properties: the draft builder *)

Section MoreDraft.
Context {W : Type}.
Variable Get : value -> string -> value.

Lemma Object_assign_reserved (source : ValidationMap W) :
  forall to : assigned W,
    (exists key, In key (Object_keys source) /\
                 mem key ["name"; "length"; "arguments"; "caller"] = true) ->
    Object_assign to source = Throw TypeError.
Proof.
  induction source as [| [k test] rest IH]; intros to [key [Hin Hres]];
    simpl in Hin |- *; [contradiction |].
  unfold Set_property.
  destruct (mem k ["name"; "length"; "arguments"; "caller"]) eqn:Hk;
    [reflexivity |].
  destruct Hin as [-> | Hin]; [congruence |].
  destruct (k =? "__proto__"); apply IH; exists key; auto.
Qed.

Lemma Object_assign_fields (source : ValidationMap W) :
  forall to : assigned W,
    (forall key, In key (Object_keys source) ->
                 mem key ["name"; "length"; "arguments"; "caller"] = false) ->
    NoDup (Object_keys source) ->
    ~ In "__proto__" (Object_keys source) ->
    (forall key, In key (Object_keys source) ->
                 ~ In key (Object_keys (received to))) ->
    Object_assign to source =
    Normal (Assigned (target to) (received to ++ source) (prototype to)).
Proof.
  induction source as [| [k test] rest IH];
    intros to Hfree Hnd Hproto Hfresh; simpl in Hnd, Hproto, Hfresh |- *.
  - rewrite app_nil_r. destruct to; reflexivity.
  - unfold Set_property. rewrite (Hfree k (or_introl eq_refl)).
    destruct (String.eqb_spec k "__proto__") as [Heq | _];
      [exfalso; apply Hproto; left; exact Heq |].
    inversion Hnd as [| ? ? Hnotin Hnd']; subst.
    rewrite IH; simpl.
    + rewrite assign_new by (apply Hfresh; left; reflexivity).
      rewrite <- app_assoc. reflexivity.
    + intros key Hin. apply Hfree. right; exact Hin.
    + exact Hnd'.
    + intros Hin. apply Hproto. right; exact Hin.
    + intros key Hin.
      rewrite assign_new by (apply Hfresh; left; reflexivity).
      unfold Object_keys. rewrite map_app, in_app_iff.
      intros [Hold | [Heq | []]].
      * apply (Hfresh key (or_intror Hin)). exact Hold.
      * simpl in Heq. subst key. contradiction.
Qed.

(** X21.  The draft builder throws a [TypeError] whenever the field map
    declares [name], [length], [arguments] or [caller], which
    [Object.assign] cannot set on a function; for any other field map
    (without [__proto__]) it returns the [validate] function carrying
    exactly the declared fields, in order, as own properties. *)
Theorem Validator_reserved_keys (validators : ValidationMap W) :
  ((exists key, In key (Object_keys validators) /\
                mem key ["name"; "length"; "arguments"; "caller"] = true) ->
   Validator Get validators = Throw TypeError) /\
  ((forall key, In key (Object_keys validators) ->
                mem key ["name"; "length"; "arguments"; "caller"] = false) ->
   distinct_keys validators ->
   ~ In "__proto__" (Object_keys validators) ->
   Validator Get validators =
   Normal (Assigned (Validator_validate Get validators) validators None)).
Proof.
  split.
  - intros Hres. apply Object_assign_reserved. exact Hres.
  - intros Hfree Hnd Hproto. unfold Validator.
    rewrite Object_assign_fields; auto.
Qed.
End MoreDraft.

(** ** Further instances *)

Lemma ValidatorMap_lookup_fields_witness :
  distinct_keys ab_map /\
  get (ValidatorMap own_property ab_map) "a" = Normal (Func isString) /\
  get (ValidatorMap own_property ab_map) "name" = Normal undefined.
Proof.
  split; [exact ab_map_distinct |].
  destruct (@ValidatorMap_lookup_fields unit own_property ab_map ab_map_distinct)
    as [Hdeclared [_ Hname]].
  split.
  - apply Hdeclared. left; reflexivity.
  - apply (Hname "name"). reflexivity.
Defined.

Lemma ValidationTree_navigate_witness :
  literal person_tree = true /\
  subtree person_tree ["name"; "given"] = Some (Leaf isString) /\
  navigate (ValidationTree own_property person_tree) ["name"; "given"]
  = Some isString.
Proof.
  split; [reflexivity |]. split; [reflexivity |].
  exact (@ValidationTree_navigate unit own_property
           [("name", Node [("given", Leaf isString); ("family", Leaf isString)]);
            ("age", Leaf isValidNumber)]
           ["name"; "given"] (Leaf isString) eq_refl eq_refl).
Defined.

Lemma buildValidationMap_keys_witness :
  literal person_tree = true /\
  Object_keys (buildValidationMap own_property person_tree) = ["name"; "age"].
Proof.
  split; [reflexivity |].
  exact (@buildValidationMap_keys unit own_property
           [("name", Node [("given", Leaf isString); ("family", Leaf isString)]);
            ("age", Leaf isValidNumber)] eq_refl).
Defined.

Lemma exceptions_propagate_from_fields_witness :
  distinct_keys [("a", isString (W := unit)); ("id", startsWith "video:")] /\
  call (ValidatorMap own_property
          [("a", isString (W := unit)); ("id", startsWith "video:")])
       (VObj [("a", VStr "x"); ("id", VNum (integer 7))]) tt
  = (Throw TypeError, tt).
Proof.
  assert (Hnd : distinct_keys
                  [("a", isString (W := unit)); ("id", startsWith "video:")]).
  { unfold distinct_keys. simpl.
    constructor; [simpl; intros [H | []]; discriminate H |].
    constructor; [intros [] | constructor]. }
  split; [exact Hnd |].
  destruct (@exceptions_propagate_from_fields unit own_property
              [("a", isString); ("id", startsWith "video:")] isString
              (VObj [("a", VStr "x"); ("id", VNum (integer 7))]) tt Hnd)
    as [Hfields _].
  apply (Hfields [("a", isString)] "id" (startsWith "video:") []
                 [VTrue] tt TypeError tt); reflexivity.
Defined.

Lemma exceptions_propagate_from_checks_witness :
  call (and (W := unit) [isNumber; startsWith "video:"]) (VNum (integer 7)) tt
  = (Throw TypeError, tt).
Proof.
  destruct (@exceptions_propagate_from_checks unit
              [isNumber] (startsWith "video:") [] (VNum (integer 7)) tt
              [VTrue] tt TypeError tt eq_refl eq_refl eq_refl)
    as [Hand _].
  apply Hand. reflexivity.
Defined.

Lemma absent_required_field_witness :
  distinct_keys ab_map /\
  required (isNumber (W := unit)) /\
  own_property (VObj [("a", VStr "x")]) "b" = VUndefined /\
  call (ValidatorMap own_property ab_map) (VObj [("a", VStr "x")]) tt
  <> (Normal VTrue, tt).
Proof.
  assert (Hreq : required (isNumber (W := unit))) by (intros w; reflexivity).
  split; [exact ab_map_distinct |]. split; [exact Hreq |].
  split; [reflexivity |].
  apply (@absent_required_field unit own_property ab_map "b" isNumber
           (VObj [("a", VStr "x")]) tt tt ab_map_distinct).
  - right. left. reflexivity.
  - exact Hreq.
  - reflexivity.
Defined.

Lemma contactOptions_needs_first_witness :
  own_property (VArr []) "0" = VUndefined /\
  call (contactOptions (W := unit) own_property no_coercion) (VArr []) tt
  = (Normal VFalse, tt).
Proof.
  split; [reflexivity |].
  apply (@contactOptions_needs_first unit own_property no_coercion (VArr []) tt).
  reflexivity.
Defined.

(** ** Further properties: order of fields and checks *)

Lemma forallb_Permutation {A : Type} (p : A -> bool) (l l' : list A) :
  Permutation l l' -> forallb p l = forallb p l'.
Proof.
  induction 1 as [| x l l' _ IH | x y l | l l' l'' _ IH1 _ IH2]; simpl.
  - reflexivity.
  - rewrite IH. reflexivity.
  - destruct (p x), (p y); reflexivity.
  - congruence.
Qed.

Lemma existsb_Permutation {A : Type} (p : A -> bool) (l l' : list A) :
  Permutation l l' -> existsb p l = existsb p l'.
Proof.
  induction 1 as [| x l l' _ IH | x y l | l l' l'' _ IH1 _ IH2]; simpl.
  - reflexivity.
  - rewrite IH. reflexivity.
  - destruct (p x), (p y); reflexivity.
  - congruence.
Qed.

Section FieldOrder.
Context {W : Type}.
Variable Get : value -> string -> value.

(** X24.  When the field validators have no effect and do not throw on an
    input, the answer of a record validator on it does not depend on the
    order of the fields: the order only decides which validators are
    run. *)
Theorem field_order_irrelevant (validators validators' : ValidationMap W)
        (item : value) (res : string * callable W -> value) :
  distinct_keys validators ->
  Permutation validators validators' ->
  (forall f, In f validators ->
             forall w, field_check Get item f w = (Normal (res f), w)) ->
  forall w,
    call (ValidatorMap Get validators) item w =
    call (ValidatorMap Get validators') item w.
Proof.
  intros Hnd Hperm Hpure w.
  assert (Hnd' : distinct_keys validators').
  { unfold distinct_keys in *.
    eapply Permutation_NoDup; [| exact Hnd].
    apply Permutation_map. exact Hperm. }
  rewrite !ValidatorMap_call by assumption.
  destruct (isMissing item); [reflexivity |].
  unfold bind.
  rewrite (every_pure (field_check Get item) res validators Hpure).
  rewrite (every_pure (field_check Get item) res validators').
  - rewrite (forallb_Permutation _ Hperm). reflexivity.
  - intros f Hf. apply Hpure.
    eapply Permutation_in; [apply Permutation_sym; exact Hperm | exact Hf].
Qed.

(** X25.  Likewise the answers of [and] and [or] on an input do not depend
    on the order of the checks when the checks have no effect and do not
    throw on it. *)
Theorem check_order_irrelevant (checks checks' : list (callable W))
        (item : value) (res : callable W -> value) :
  Permutation checks checks' ->
  (forall check, In check checks ->
                 forall w, call check item w = (Normal (res check), w)) ->
  forall w,
    call (and checks) item w = call (and checks') item w /\
    call (or checks) item w = call (or checks') item w.
Proof.
  intros Hperm Hpure w.
  assert (Hpure' : forall check, In check checks' ->
                                 forall w, call check item w
                                           = (Normal (res check), w)).
  { intros check Hin. apply Hpure.
    eapply Permutation_in; [apply Permutation_sym; exact Hperm | exact Hin]. }
  unfold and. rewrite !compose_call, !or_call.
  destruct (isMissing item); [split; reflexivity |].
  unfold bind.
  rewrite (every_pure (fun c => call c item) res checks Hpure).
  rewrite (every_pure (fun c => call c item) res checks' Hpure').
  rewrite (some_pure (fun c => call c item) res checks Hpure).
  rewrite (some_pure (fun c => call c item) res checks' Hpure').
  rewrite (forallb_Permutation _ Hperm), (existsb_Permutation _ Hperm).
  split; reflexivity.
Qed.
End FieldOrder.

Lemma field_order_irrelevant_witness :
  distinct_keys ab_map /\
  Permutation ab_map [("b", isNumber); ("a", isString)] /\
  call (ValidatorMap own_property ab_map) (VObj [("a", VStr "x")]) tt
  = call (ValidatorMap own_property [("b", isNumber); ("a", isString)])
         (VObj [("a", VStr "x")]) tt.
Proof.
  assert (Hperm : Permutation ab_map [("b", isNumber); ("a", isString)])
    by apply perm_swap.
  split; [exact ab_map_distinct |]. split; [exact Hperm |].
  apply (@field_order_irrelevant unit own_property ab_map
           [("b", isNumber); ("a", isString)] (VObj [("a", VStr "x")])
           (fun f => VBool (js_typeof
                              (own_property (VObj [("a", VStr "x")]) (fst f))
                            =? (if fst f =? "a" then "string" else "number")))
           ab_map_distinct Hperm).
  intros f [<- | [<- | []]] w; reflexivity.
Defined.

Lemma check_order_irrelevant_witness :
  Permutation [isString (W := unit); isNumber] [isNumber; isString] /\
  call (or (W := unit) [isString; isNumber]) (VNum (integer 1)) tt
  = call (or (W := unit) [isNumber; isString]) (VNum (integer 1)) tt.
Proof.
  assert (Hperm : Permutation [isString (W := unit); isNumber]
                              [isNumber; isString]) by apply perm_swap.
  split; [exact Hperm |].
  apply (@check_order_irrelevant unit [isString; isNumber] [isNumber; isString]
           (VNum (integer 1))
           (fun check => match call check (VNum (integer 1)) tt with
                         | (Normal r, _) => r
                         | (Throw _, _) => VFalse
                         end)
           Hperm).
  intros check [<- | [<- | []]] w; destruct w; reflexivity.
Defined.
